(** * Life-events scraper: verification of [detailed_life_events.py]

    A shallow embedding of [src/Astrology/LifeOverview/detailed_life_events.py]
    (class [WikipediaScraper], [process_person], [main]) and the proofs of
    the properties its specification states.

    Conventions of the embedding:
    - a Python [str] is a list of characters; a character is an 8-bit code
      point, so the development covers strings over U+0000..U+00FF, on which
      Python's Unicode tables for [\s], [\d] and [str.lower] are the ones
      written out below;
    - a [dict] is a [gmap]; a list is a [list];
    - a call that may raise is a value of [outcome]: [Return v] or
      [Raise msg], where [msg] is [str(e)] of the exception (an instance of
      [Exception]);
    - the remote services (the encyclopedia API, the HTTP session and the
      HTML parser) are an explicit [Remote] record of fallible functions;
    - the thread pool is represented by the order in which [as_completed]
      yields the futures. *)

From Stdlib Require Import Ascii String Lia.
From Equations Require Import Equations.
From Equations.Prop Require Import Logic.
From stdpp Require Import base list gmap fin_maps strings.

Local Open Scope list_scope.
#[local] Set Warnings "-clear-no-such-hyp".

(** ** Strings *)

Definition pystr : Type := list ascii.

(** A string literal of the source. *)
Definition py (s : string) : pystr := list_ascii_of_string s.

Module Char.

Definition code (c : ascii) : nat := nat_of_ascii c.

Definition between (lo hi : nat) (c : ascii) : bool :=
  (lo <=? code c) && (code c <=? hi).

(** [\s] of [re] on [str], and the characters [str.strip] removes:
    [Py_UNICODE_ISSPACE] below U+0100. *)
Definition isspace (c : ascii) : bool :=
  between 9 13 c || between 28 32 c || (code c =? 133) || (code c =? 160).

(** [\d] of [re] on [str]: Unicode category Nd below U+0100. *)
Definition isdecimal (c : ascii) : bool := between 48 57 c.

(** [str.lower] on one character: A-Z, and U+00C0..U+00DE without the
    multiplication sign U+00D7, move up by 32. *)
Definition lower (c : ascii) : ascii :=
  if between 65 90 c || (between 192 222 c && negb (code c =? 215))
  then ascii_of_nat (code c + 32)
  else c.

Definition eqb (a b : ascii) : bool := Ascii.eqb a b.

End Char.

Definition space : ascii := " "%char.
Definition newline : ascii := ascii_of_nat 10.
Definition lbracket : ascii := "["%char.
Definition rbracket : ascii := "]"%char.

(** [s.lower()] *)
Definition lower (s : pystr) : pystr := map Char.lower s.

(** [s.startswith(p)] *)
Fixpoint startswith (p s : pystr) : bool :=
  match p, s with
  | [], _ => true
  | _ :: _, [] => false
  | a :: p', b :: s' => Char.eqb a b && startswith p' s'
  end.

(** [needle in hay] *)
Fixpoint contains (needle hay : pystr) : bool :=
  startswith needle hay ||
  match hay with
  | [] => false
  | _ :: hay' => contains needle hay'
  end.

(** [sep.join(parts)] *)
Fixpoint join (sep : pystr) (parts : list pystr) : pystr :=
  match parts with
  | [] => []
  | [p] => p
  | p :: rest => p ++ sep ++ join sep rest
  end.

(** [name.replace(' ', '_')] *)
Definition replace_char (a b : ascii) (s : pystr) : pystr :=
  map (fun c => if Char.eqb c a then b else c) s.

(** ** [WikipediaScraper.clean_text] *)

(** The text left after the longest prefix of characters satisfying [p]. *)
Fixpoint dropwhile {A} (p : A -> bool) (l : list A) : list A :=
  match l with
  | [] => []
  | a :: l' => if p a then dropwhile p l' else l
  end.

Lemma dropwhile_length {A} (p : A -> bool) (l : list A) :
  length (dropwhile p l) <= length l.
Proof. induction l as [|a l IH]; simpl; [lia|]. destruct (p a); simpl; lia. Qed.

(** One match of [\[\d+\]] at the start of [s]: the text after the match.
    [\d+] is greedy, and the closing bracket is no digit, so the match takes
    the whole run of digits. *)
Definition match_citation (s : pystr) : option pystr :=
  match s with
  | c :: d :: r =>
      if Char.eqb c lbracket && Char.isdecimal d then
        match dropwhile Char.isdecimal r with
        | c' :: rest => if Char.eqb c' rbracket then Some rest else None
        | [] => None
        end
      else None
  | _ => None
  end.

Lemma match_citation_shorter s r : match_citation s = Some r -> length r < length s.
Proof.
  destruct s as [|c [|d s]]; simpl; try discriminate.
  destruct (_ && _); [|discriminate].
  pose proof (dropwhile_length Char.isdecimal s) as Hd.
  destruct (dropwhile Char.isdecimal s) as [|c' r'] eqn:E; [discriminate|].
  destruct (Char.eqb c' rbracket); [|discriminate].
  intros [= <-]. simpl in Hd. lia.
Qed.

(** [re.sub(r'\[\d+\]', '', text)]: one scan from the left; a match is dropped
    and the scan resumes after it, any other character is kept. *)
Equations? sub_citations (s : pystr) : pystr by wf (length s) lt :=
  sub_citations [] := [];
  sub_citations (c :: r) with inspect (match_citation (c :: r)) := {
    | exist _ (Some rest) found := sub_citations rest;
    | exist _ None _ := c :: sub_citations r }.
Proof. all: try (simpl; lia). exact (match_citation_shorter _ _ found). Qed.

(** [re.sub(r'\s+', ' ', text)]: every maximal run of whitespace becomes one
    space (the last character of a run writes the space). *)
Fixpoint collapse_spaces (s : pystr) : pystr :=
  match s with
  | [] => []
  | c :: r =>
      if Char.isspace c then
        match r with
        | c' :: _ => if Char.isspace c' then collapse_spaces r
                     else space :: collapse_spaces r
        | [] => [space]
        end
      else c :: collapse_spaces r
  end.

(** [s.strip()] *)
Definition lstrip (s : pystr) : pystr := dropwhile Char.isspace s.
Definition rstrip (s : pystr) : pystr := rev (dropwhile Char.isspace (rev s)).
Definition strip (s : pystr) : pystr := rstrip (lstrip s).

Definition clean_text (text : pystr) : pystr :=
  match text with
  | [] => []
  | _ =>
      let text := sub_citations text in
      let text := strip (collapse_spaces text) in
      take 2000 text
  end.

(** ** The parsed document ([BeautifulSoup]) *)

#[local] Set Warnings "-register-all".

(** An element of the tree: a string ([NavigableString]) or a tag with its
    name, the values of its [class] attribute and its children. The
    [BeautifulSoup] object itself is the root tag. *)
Inductive Node : Type :=
| Text (s : pystr)
| Tag (name : pystr) (classes : list pystr) (children : list Node).

(** [tag.get_text()] *)
Fixpoint get_text (n : Node) : pystr :=
  match n with
  | Text s => s
  | Tag _ _ cs => concat (map get_text cs)
  end.

(** The tags below [n] in document order, each paired with the elements that
    follow it under the same parent ([tag.next_siblings]). *)
Fixpoint descendants (n : Node) : list (Node * list Node) :=
  match n with
  | Text _ => []
  | Tag _ _ cs =>
      (fix walk (l : list Node) : list (Node * list Node) :=
         match l with
         | [] => []
         | c :: sibs =>
             match c with
             | Tag _ _ _ => (c, sibs) :: descendants c ++ walk sibs
             | Text _ => walk sibs
             end
         end) cs
  end.

(** [n.find(p)]: the first tag below [n] that satisfies [p]. *)
Definition find (p : Node -> bool) (n : Node) : option (Node * list Node) :=
  List.find (fun e => p e.1) (descendants n).

(** [n.find_all(p)] *)
Definition find_all (p : Node -> bool) (n : Node) : list Node :=
  map fst (List.filter (fun e => p e.1) (descendants n)).

(** [tag.name == nm] *)
Definition named (nm : pystr) (n : Node) : bool :=
  match n with
  | Tag nm' _ _ => bool_decide (nm' = nm)
  | Text _ => false
  end.

(** [tag.name in ['h2', 'h3']] *)
Definition is_heading (n : Node) : bool := named (py "h2") n || named (py "h3") n.

(** The filter of [find('table', {'class': 'infobox'})]. *)
Definition is_infobox_table (n : Node) : bool :=
  match n with
  | Tag nm cls _ => bool_decide (nm = py "table") && bool_decide (py "infobox" ∈ cls)
  | Text _ => false
  end.

(** ** [WikipediaScraper.extract_events] *)

Record Event : Type := { ev_type : pystr; ev_content : pystr }.

Definition sections : list (pystr * list pystr) :=
  [ (py "Early Life", [py "early life"; py "childhood"; py "education"]);
    (py "Career", [py "career"; py "professional"; py "work"]);
    (py "Achievements", [py "achievements"; py "awards"; py "honors"]);
    (py "Personal Life", [py "personal life"; py "relationships"; py "family"]);
    (py "Later Years", [py "later years"; py "retirement"; py "death"]) ].

(** The filter of the heading search for one keyword. *)
Definition heading_with (keyword : pystr) (n : Node) : bool :=
  is_heading n && contains keyword (lower (get_text n)).

(** The loop over [heading.find_next_siblings()]: stop at the next heading,
    keep the cleaned text of every paragraph that is not empty. *)
Fixpoint section_content (siblings : list Node) : list pystr :=
  match siblings with
  | [] => []
  | elem :: rest =>
      match elem with
      | Text _ => section_content rest
      | Tag _ _ _ =>
          if is_heading elem then []
          else if named (py "p") elem then
            let text := clean_text (get_text elem) in
            match text with
            | [] => section_content rest
            | _ => text :: section_content rest
            end
          else section_content rest
      end
  end.

(** The loop over the keywords of one section: the first keyword for which a
    heading is found decides, and ends the loop. *)
Fixpoint section_event (section_name : pystr) (keywords : list pystr) (soup : Node)
  : option Event :=
  match keywords with
  | [] => None
  | keyword :: keywords' =>
      match find (heading_with keyword) soup with
      | Some (heading, siblings) =>
          match section_content siblings with
          | [] => None
          | content =>
              Some {| ev_type := section_name;
                      ev_content := take 3000 (join [newline] content) |}
          end
      | None => section_event section_name keywords' soup
      end
  end.

(** The loop over the sections, from a given list of sections. *)
Fixpoint events_of (secs : list (pystr * list pystr)) (soup : Node) : list Event :=
  match secs with
  | [] => []
  | (section_name, keywords) :: secs' =>
      match section_event section_name keywords soup with
      | Some ev => ev :: events_of secs' soup
      | None => events_of secs' soup
      end
  end.

Definition extract_events (soup : Node) : list Event := events_of sections soup.

(** ** The profile panel of [WikipediaScraper.get_person_data] *)

(** The body of the loop over the rows: [row.th] and [row.td] are the first
    such cells below the row. *)
Definition infobox_row (infobox : gmap pystr pystr) (row : Node) : gmap pystr pystr :=
  match find (named (py "th")) row, find (named (py "td")) row with
  | Some (th, _), Some (td, _) =>
      let key := clean_text (get_text th) in
      let value := clean_text (get_text td) in
      match key, value with
      | _ :: _, _ :: _ => <[key := value]> infobox
      | _, _ => infobox
      end
  | _, _ => infobox
  end.

Definition extract_infobox (soup : Node) : gmap pystr pystr :=
  match find is_infobox_table soup with
  | Some (infobox_table, _) =>
      foldl infobox_row ∅ (find_all (named (py "tr")) infobox_table)
  | None => ∅
  end.

(** ** Calls that may raise *)

Inductive outcome (A : Type) : Type :=
| Return (a : A)
| Raise (msg : pystr).
Arguments Return {A} a.
Arguments Raise {A} msg.

(** Sequencing: the first call that raises ends the block. *)
#[global] Instance outcome_bind : MBind outcome := fun A B k c =>
  match c with
  | Return a => k a
  | Raise msg => Raise msg
  end.

(** [try: body except Exception as e: handler(str(e))] *)
Definition try_except {A} (body : outcome A) (handler : pystr -> outcome A) : outcome A :=
  match body with
  | Return a => Return a
  | Raise msg => handler msg
  end.

(** What [session.get] returns. *)
Record Response : Type := { status_code : nat; text : pystr }.

(** The services a scraper talks to: [wiki.page(title).exists()],
    [page.summary], [session.get(url, timeout=15)] and
    [BeautifulSoup(markup, 'html.parser')]. Each may raise. *)
Record Remote : Type := {
  page_exists : pystr -> outcome bool;
  page_summary : pystr -> outcome pystr;
  session_get : pystr -> outcome Response;
  html_parse : pystr -> outcome Node
}.

(** ** [WikipediaScraper.get_person_data] *)

(** The dictionary the method returns: either the single key ['error'], or
    the keys ['summary'], ['infobox'], ['events'] and ['url']. *)
Inductive PersonData : Type :=
| Failure (error : pystr)
| Success (summary : pystr) (infobox : gmap pystr pystr) (events : list Event)
          (url : pystr).

(** [name.replace(' ', '_')], the title asked for and the end of the URL. *)
Definition page_title (name : pystr) : pystr := replace_char space "_"%char name.

Definition page_url (name : pystr) : pystr :=
  py "https://en.wikipedia.org/wiki/" ++ page_title name.

(** The method after its opening [time.sleep(REQUEST_DELAY)], which takes
    time and does nothing else: the [try] block and its handler. *)
Definition get_person_data (remote : Remote) (name : pystr) : outcome PersonData :=
  try_except
    (let title := page_title name in
     found ← page_exists remote title;
     if negb found then Return (Failure (py "Page not found"))
     else
       let url := page_url name in
       response ← session_get remote url;
       soup ← html_parse remote (text response);
       let infobox := extract_infobox soup in
       let events := extract_events soup in
       summary ← page_summary remote title;
       Return (Success (take 3000 summary) infobox events url))
    (fun msg => Return (Failure msg)).

(** ** [process_person] *)

(** A cell of a result row: a string, or the list under ['Events']. *)
Inductive Value : Type :=
| VStr (s : pystr)
| VEvents (events : list Event).

(** [data.get(key, default)] on the dictionary of [get_person_data]. *)
Definition data_url (d : PersonData) : pystr :=
  match d with Success _ _ _ url => url | Failure _ => [] end.
Definition data_summary (d : PersonData) : pystr :=
  match d with Success summary _ _ _ => summary | Failure _ => [] end.
Definition data_error (d : PersonData) : pystr :=
  match d with Success _ _ _ _ => [] | Failure error => error end.
Definition data_infobox (d : PersonData) : gmap pystr pystr :=
  match d with Success _ infobox _ _ => infobox | Failure _ => ∅ end.
Definition data_events (d : PersonData) : list Event :=
  match d with Success _ _ events _ => events | Failure _ => [] end.

(** [person.get(key, '')] on a roster record. *)
Definition get_or_empty (person : gmap pystr pystr) (key : string) : pystr :=
  default [] (person !! py key).

(** [person[key]], which raises [KeyError(key)]. *)
Definition subscript (person : gmap pystr pystr) (key : string) : outcome pystr :=
  match person !! py key with
  | Some v => Return v
  | None => Raise (py "'" ++ py key ++ py "'")
  end.

(** The fixed columns of a result row. *)
Definition base_fields (person : gmap pystr pystr) (data : PersonData)
  : gmap pystr Value :=
  <[py "Error" := VStr (data_error data)]>
  (<[py "Summary" := VStr (data_summary data)]>
  (<[py "Wikipedia_URL" := VStr (data_url data)]>
  (<[py "Time_Zone" := VStr (get_or_empty person "Time Zone")]>
  (<[py "Longitude" := VStr (get_or_empty person "Longitude")]>
  (<[py "Latitude" := VStr (get_or_empty person "Latitude")]>
  (<[py "Birth_Location" := VStr (get_or_empty person "Location")]>
  (<[py "Birth_Time" := VStr (get_or_empty person "Time")]>
  (<[py "Birth_Date" :=
       VStr (get_or_empty person "Day" ++ py "/" ++
             get_or_empty person "Month" ++ py "/" ++
             get_or_empty person "Year")]>
  (<[py "Gender" := VStr (get_or_empty person "Gender")]>
  (<[py "Name" := VStr (get_or_empty person "Name")]> ∅)))))))))).

(** One turn of the loop over [data.get('infobox', {}).items()]. *)
Definition add_infobox_column (key value : pystr) (result : gmap pystr Value)
  : gmap pystr Value :=
  <[py "Infobox_" ++ key := VStr value]> result.

(** The row built from a roster record and the scraped data. *)
Definition result_row (person : gmap pystr pystr) (data : PersonData)
  : gmap pystr Value :=
  let result := base_fields person data in
  let result := map_fold add_infobox_column result (data_infobox data) in
  <[py "Events" := VEvents (data_events data)]> result.

Definition process_person (remote : Remote) (person : gmap pystr pystr)
  : outcome (gmap pystr Value) :=
  name ← subscript person "Name";
  data ← get_person_data remote name;
  Return (result_row person data).

(** ** [main] *)

Definition CHECKPOINT_EVERY : nat := 25.

(** What the loop over [as_completed(futures)] builds: the list [results],
    every table written to [OUTPUT_CSV] so far (oldest first; each write
    replaces the file), and the lines printed. *)
Record Progress : Type := {
  results : list (gmap pystr Value);
  written : list (list (gmap pystr Value));
  printed : list pystr
}.

Definition start : Progress := {| results := []; written := []; printed := [] |}.

(** The line printed for a task that raised. *)
Definition error_line (msg : pystr) : pystr := newline :: py "Error: " ++ take 100 msg.

(** One turn of the loop, for the future that completed next: the result is
    appended and, at a multiple of the interval, the whole list is written;
    a future that raised leaves a printed line. *)
Definition consume (st : Progress) (future : outcome (gmap pystr Value)) : Progress :=
  match future with
  | Return result =>
      let results' := results st ++ [result] in
      if length results' mod CHECKPOINT_EVERY =? 0
      then {| results := results'; written := written st ++ [results'];
              printed := printed st |}
      else {| results := results'; written := written st; printed := printed st |}
  | Raise msg =>
      {| results := results st; written := written st;
         printed := printed st ++ [error_line msg] |}
  end.

Definition collect (completed : list (outcome (gmap pystr Value))) : Progress :=
  foldl consume start completed.

(** [person.get('Events')] as a condition and as the list looped over. *)
Definition events_of_row (person : gmap pystr Value) : list Event :=
  match person !! py "Events" with
  | Some (VEvents events) => events
  | _ => []
  end.

(** The rows one entry of [results] expands to. *)
Definition expand_person (person : gmap pystr Value) : list (gmap pystr Value) :=
  let base_info := delete (py "Events") person in
  match events_of_row person with
  | [] => [base_info]
  | events =>
      map (fun event =>
             <[py "Event_Details" := VStr (ev_content event)]>
             (<[py "Event_Type" := VStr (ev_type event)]> base_info))
          events
  end.

Definition expand_events (results : list (gmap pystr Value)) : list (gmap pystr Value) :=
  concat (map expand_person results).

(** [main] after the futures are submitted, for futures that complete in the
    order [completed]: the state at the end, with the final write, and the
    rows of the final table. *)
Definition main_loop (completed : list (outcome (gmap pystr Value)))
  : Progress * list (gmap pystr Value) :=
  let st := collect completed in
  let expanded_data := expand_events (results st) in
  ({| results := results st; written := written st ++ [expanded_data];
      printed := printed st |}, expanded_data).

(** [main] for a roster given in the order in which its tasks complete. *)
Definition main (remote : Remote) (roster : list (gmap pystr pystr))
  : Progress * list (gmap pystr Value) :=
  main_loop (map (process_person remote) roster).

(** ** [github_tree.py]: [build_directory_structure] *)

(** An entry of the nested dictionary: [None] for a file, a dictionary for
    a directory. *)
Inductive Entry : Type :=
| File
| Dir (contents : gmap pystr Entry).

(** An item of the tree listing, with its ['type'] and ['path']. *)
Record Item : Type := { item_type : pystr; item_path : pystr }.

(** [s.split(sep)] for a separator of one character. *)
Fixpoint split_on (sep : ascii) (s : pystr) : list pystr :=
  match s with
  | [] => [[]]
  | c :: r =>
      if Char.eqb c sep then [] :: split_on sep r
      else match split_on sep r with
           | part :: parts => (c :: part) :: parts
           | [] => [[c]]
           end
  end.

(** The [TypeError] of [part not in None] and of [None[name] = ...]. *)
Definition not_iterable : pystr := py "argument of type 'NoneType' is not iterable".
Definition no_item_assignment : pystr :=
  py "'NoneType' object does not support item assignment".

(** The walk down [path_parts[:-1]] from [level], creating the directories
    that are missing, and the assignment of [leaf] under [name] where the
    walk ends. A file met on the way makes the next step raise. *)
Fixpoint place (dirs : list pystr) (name : pystr) (leaf : Entry)
    (level : gmap pystr Entry) : outcome (gmap pystr Entry) :=
  match dirs with
  | [] => Return (<[name := leaf]> level)
  | part :: dirs' =>
      match level !! part with
      | None =>
          contents ← place dirs' name leaf ∅;
          Return (<[part := Dir contents]> level)
      | Some (Dir below) =>
          contents ← place dirs' name leaf below;
          Return (<[part := Dir contents]> level)
      | Some File =>
          match dirs' with
          | [] => Raise no_item_assignment
          | _ :: _ => Raise not_iterable
          end
      end
  end.

(** The body of the loop over the items. *)
Definition place_item (item : Item) (structure : gmap pystr Entry)
  : outcome (gmap pystr Entry) :=
  if negb (bool_decide (item_type item = py "blob"))
     && negb (bool_decide (item_type item = py "tree"))
  then Return structure
  else
    let path_parts := split_on "/"%char (item_path item) in
    let leaf := if bool_decide (item_type item = py "blob") then File else Dir ∅ in
    place (removelast path_parts) (List.last path_parts []) leaf structure.

(** The loop, from the structure built so far. *)
Fixpoint place_items (tree : list Item) (structure : gmap pystr Entry)
  : outcome (gmap pystr Entry) :=
  match tree with
  | [] => Return structure
  | item :: tree' =>
      structure' ← place_item item structure;
      place_items tree' structure'
  end.

Definition build_directory_structure (tree : list Item) : outcome (gmap pystr Entry) :=
  place_items tree ∅.

(** The entry found by following [parts] down from [level]. *)
Fixpoint entry_at (parts : list pystr) (level : gmap pystr Entry) : option Entry :=
  match parts with
  | [] => None
  | [name] => level !! name
  | part :: parts' =>
      match level !! part with
      | Some (Dir below) => entry_at parts' below
      | _ => None
      end
  end.

(** ** Vocabulary of the statements *)

(** A match of [\[\d+\]] starts at the beginning of [s]. *)
Definition citation_at (s : pystr) : bool :=
  match match_citation s with Some _ => true | None => false end.

(** [s] has a citation marker: a match starts somewhere in [s]. *)
Fixpoint has_citation (s : pystr) : bool :=
  match s with
  | [] => false
  | _ :: r => citation_at s || has_citation r
  end.

(** Two whitespace characters in a row occur in [s]. *)
Fixpoint double_space (s : pystr) : bool :=
  match s with
  | a :: r => match r with
              | b :: _ => (Char.isspace a && Char.isspace b) || double_space r
              | [] => false
              end
  | [] => false
  end.

(** The heading the keyword loop of a section settles on. *)
Fixpoint section_heading (keywords : list pystr) (soup : Node)
  : option (Node * list Node) :=
  match keywords with
  | [] => None
  | keyword :: keywords' =>
      match find (heading_with keyword) soup with
      | Some found => Some found
      | None => section_heading keywords' soup
      end
  end.

(** The event made from the paragraphs [content] of a section. *)
Definition event_of (section_name : pystr) (content : list pystr) : Event :=
  {| ev_type := section_name; ev_content := take 3000 (join [newline] content) |}.

(** The values that completed tasks returned, in completion order. *)
Definition returned {A} (completed : list (outcome A)) : list A :=
  omap (fun f => match f with Return a => Some a | Raise _ => None end) completed.

(** The key/value pair a row of the panel contributes, if it contributes. *)
Definition infobox_pair (row : Node) : option (pystr * pystr) :=
  match find (named (py "th")) row, find (named (py "td")) row with
  | Some (th, _), Some (td, _) =>
      match clean_text (get_text th), clean_text (get_text td) with
      | (_ :: _) as key, (_ :: _) as value => Some (key, value)
      | _, _ => None
      end
  | _, _ => None
  end.

Definition put (infobox : gmap pystr pystr) (kv : pystr * pystr) : gmap pystr pystr :=
  <[kv.1 := kv.2]> infobox.

(** The row of one event of a person. *)
Definition event_row (base_info : gmap pystr Value) (event : Event) : gmap pystr Value :=
  <[py "Event_Details" := VStr (ev_content event)]>
  (<[py "Event_Type" := VStr (ev_type event)]> base_info).

(** The messages of the tasks that raised, in completion order. *)
Definition raised {A} (completed : list (outcome A)) : list pystr :=
  omap (fun f => match f with Return _ => None | Raise msg => Some msg end) completed.

(** The snapshots a run writes while [results] grows to [rs]: one for every
    full multiple of the interval, holding the results up to there. *)
Definition checkpoints {A} (rs : list A) : list (list A) :=
  (fun j => take (CHECKPOINT_EVERY * j) rs) <$> seq 1 (length rs / CHECKPOINT_EVERY).

(** ** Sample pages, services and runs *)

(** A page whose only heading, "Early life and career", is followed by one
    paragraph. *)
Definition early_life_and_career : Node :=
  Tag (py "[document]") []
    [ Tag (py "h2") [] [Text (py "Early life and career")];
      Tag (py "p") [] [Text (py "Born in London.")] ].

(** A page with two panels; the first one has two rows labelled "Born" and
    a row whose data cell is blank. *)
Definition born_row (year : string) : Node :=
  Tag (py "tr") [] [ Tag (py "th") [] [Text (py "Born")];
                     Tag (py "td") [] [Text (py year)] ].

Definition first_panel : Node :=
  Tag (py "table") [py "infobox"; py "vcard"]
    [ born_row "1815";
      born_row " 1816 [2]";
      Tag (py "tr") [] [ Tag (py "th") [] [Text (py "Died")];
                         Tag (py "td") [] [Text (py " ")] ] ].

Definition second_panel : Node :=
  Tag (py "table") [py "infobox"]
    [ Tag (py "tr") [] [ Tag (py "th") [] [Text (py "Known for")];
                         Tag (py "td") [] [Text (py "Notes")] ] ].

Definition two_panels : Node :=
  Tag (py "[document]") []
    [ Tag (py "div") [] [ first_panel ]; second_panel ].

(** The encyclopedia has no page for anybody. *)
Definition nobody_known : Remote :=
  {| page_exists := fun _ => Return false;
     page_summary := fun _ => Return [];
     session_get := fun _ => Return {| status_code := 404; text := [] |};
     html_parse := fun _ => Return (Tag (py "[document]") [] []) |}.

(** Every request times out. *)
Definition unreachable : Remote :=
  {| page_exists := fun _ => Raise (py "Read timed out.");
     page_summary := fun _ => Raise (py "Read timed out.");
     session_get := fun _ => Raise (py "Read timed out.");
     html_parse := fun _ => Return (Tag (py "[document]") [] []) |}.

(** Every name resolves to the page [early_life_and_career], whose summary
    carries a citation marker and a run of two spaces. *)
Definition one_page : Remote :=
  {| page_exists := fun _ => Return true;
     page_summary := fun _ => Return (py "Ada[1]  Lovelace was a mathematician.");
     session_get := fun _ => Return {| status_code := 200; text := py "<h2>...</h2>" |};
     html_parse := fun _ => Return early_life_and_career |}.

(** The roster record of Ada Lovelace. *)
Definition ada : gmap pystr pystr :=
  {[ py "Name" := py "Ada Lovelace"; py "Gender" := py "F"; py "Year" := py "1815" ]}.

(** A fault followed by a person with three events. *)
Definition three_events : list Event :=
  [ {| ev_type := py "Early Life"; ev_content := py "Born." |};
    {| ev_type := py "Career"; ev_content := py "Worked." |};
    {| ev_type := py "Later Years"; ev_content := py "Died." |} ].

Definition fault_then_ada : list (outcome (gmap pystr Value)) :=
  [ Raise (py "boom");
    Return (result_row ada (Success (py "Ada") ∅ three_events [])) ].


(** The page is there, but the HTTP request is answered with status 503 and
    a body that parses to an empty document. *)
Definition overloaded : Remote :=
  {| page_exists := fun _ => Return true;
     page_summary := fun _ => Return (py "Ada Lovelace");
     session_get := fun _ => Return {| status_code := 503; text := py "Service Unavailable" |};
     html_parse := fun _ => Return (Tag (py "[document]") [] []) |}.

(** A page whose first heading mentions education and has no paragraph,
    and whose second heading mentions childhood and has one. *)
Definition education_first : Node :=
  Tag (py "[document]") []
    [ Tag (py "h2") [] [Text (py "Education")];
      Tag (py "h2") [] [Text (py "Childhood")];
      Tag (py "p") [] [Text (py "Born in London.")] ].

(** A listing as the service gives it: a directory before what it holds. *)
Definition sample_listing : list Item :=
  [ {| item_type := py "blob"; item_path := py "README.md" |};
    {| item_type := py "tree"; item_path := py "src" |};
    {| item_type := py "commit"; item_path := py "vendor" |};
    {| item_type := py "blob"; item_path := py "src/app/main.py" |} ].

(** ** Text cleaning *)

Lemma dropwhile_suffix {A} (p : A -> bool) (l : list A) :
  exists skipped, l = skipped ++ dropwhile p l.
Proof.
  induction l as [|a l [k IH]]; simpl.
  - exists []. reflexivity.
  - destruct (p a).
    + exists (a :: k). simpl. congruence.
    + exists []. reflexivity.
Qed.

Lemma strip_infix s : exists before after, s = before ++ strip s ++ after.
Proof.
  unfold strip, rstrip, lstrip.
  destruct (dropwhile_suffix Char.isspace s) as [k1 H1].
  destruct (dropwhile_suffix Char.isspace (rev (dropwhile Char.isspace s))) as [k2 H2].
  exists k1, (rev k2).
  rewrite <- rev_app_distr, <- H2, rev_involutive. exact H1.
Qed.

Lemma double_space_app_l s t : double_space (s ++ t) = false -> double_space s = false.
Proof.
  induction s as [|a [|b s] IH]; simpl; try reflexivity.
  intros H. apply orb_false_iff in H as [H1 H2].
  rewrite H1. simpl. apply IH. exact H2.
Qed.

Lemma double_space_app_r s t : double_space (s ++ t) = false -> double_space t = false.
Proof.
  induction s as [|a s IH]; simpl; [tauto|].
  destruct (s ++ t) eqn:E; intros H.
  - destruct s; [simpl in E; subst; reflexivity | discriminate].
  - apply orb_false_iff in H as [_ H]. apply IH. exact H.
Qed.

Lemma collapse_spaces_single s : double_space (collapse_spaces s) = false.
Proof.
  induction s as [|c r IH]; [reflexivity|].
  simpl. destruct (Char.isspace c) eqn:Hc.
  - destruct r as [|c' r']; [reflexivity|].
    destruct (Char.isspace c') eqn:Hc'; [exact IH|].
    simpl in IH. rewrite Hc' in IH.
    change (collapse_spaces (c' :: r')) with
      (if Char.isspace c' then
         match r' with
         | c'' :: _ => if Char.isspace c'' then collapse_spaces r'
                       else space :: collapse_spaces r'
         | [] => [space]
         end
       else c' :: collapse_spaces r').
    rewrite Hc'.
    change (double_space (space :: c' :: collapse_spaces r')) with
      (Char.isspace space && Char.isspace c'
       || double_space (c' :: collapse_spaces r')).
    rewrite Hc', andb_false_r. exact IH.
  - simpl. destruct (collapse_spaces r) eqn:E; [reflexivity|].
    rewrite Hc. exact IH.
Qed.

(** The cleaned text is at most 2000 characters long. *)
Lemma clean_text_length s : length (clean_text s) <= 2000.
Proof.
  unfold clean_text. destruct s; simpl length; [lia|].
  rewrite length_take. lia.
Qed.

(** The cleaned text has no two whitespace characters in a row. *)
Lemma clean_text_single_spaced s : double_space (clean_text s) = false.
Proof.
  unfold clean_text. destruct s as [|c s]; [reflexivity|].
  set (t := sub_citations (c :: s)).
  destruct (strip_infix (collapse_spaces t)) as (k1 & k2 & Hk).
  pose proof (collapse_spaces_single t) as Hd.
  rewrite Hk in Hd. apply double_space_app_r, double_space_app_l in Hd.
  rewrite <- (take_drop 2000 (strip _)) in Hd.
  apply double_space_app_l in Hd. exact Hd.
Qed.

(** C5. Summary, event contents and cleaned text are bounded and single
    spaced, but a citation marker survives the cleaning where the removal of
    an inner marker leaves one: the paragraph text "[[1]2]" is cleaned to
    "[2]", although the pass over the text is there to remove citations. *)
Theorem clean_text_leaves_citation :
  clean_text (py "[[1]2]") = py "[2]" /\
  has_citation (clean_text (py "[[1]2]")) = true.
Proof. split; vm_compute; reflexivity. Qed.

(** ** Section extraction *)

Lemma section_event_heading section_name keywords soup :
  section_event section_name keywords soup =
  match section_heading keywords soup with
  | Some (_, siblings) =>
      match section_content siblings with
      | [] => None
      | content => Some (event_of section_name content)
      end
  | None => None
  end.
Proof.
  induction keywords as [|kw kws IH]; simpl; [reflexivity|].
  destruct (find (heading_with kw) soup) as [[h sibs]|]; [|exact IH].
  destruct (section_content sibs); reflexivity.
Qed.

Lemma section_event_type section_name keywords soup ev :
  section_event section_name keywords soup = Some ev -> ev_type ev = section_name.
Proof.
  rewrite section_event_heading.
  destruct (section_heading keywords soup) as [[h sibs]|]; [|discriminate].
  destruct (section_content sibs); [discriminate|].
  intros [= <-]. reflexivity.
Qed.

Lemma section_event_content section_name keywords soup ev :
  section_event section_name keywords soup = Some ev -> length (ev_content ev) <= 3000.
Proof.
  rewrite section_event_heading.
  destruct (section_heading keywords soup) as [[h sibs]|]; [|discriminate].
  destruct (section_content sibs); [discriminate|].
  intros [= <-]. simpl. rewrite length_take. lia.
Qed.

Lemma events_of_app secs1 secs2 soup :
  events_of (secs1 ++ secs2) soup = events_of secs1 soup ++ events_of secs2 soup.
Proof.
  induction secs1 as [|[n kws] secs1 IH]; simpl; [reflexivity|].
  destruct (section_event n kws soup); simpl; congruence.
Qed.

Lemma events_of_types secs soup :
  map ev_type (events_of secs soup) `sublist_of` map fst secs.
Proof.
  induction secs as [|[n kws] secs IH]; simpl; [constructor|].
  destruct (section_event n kws soup) as [ev|] eqn:E; simpl.
  - rewrite (section_event_type _ _ _ _ E). by apply sublist_skip.
  - by apply sublist_cons.
Qed.

(** Every emitted event's content is at most 3000 characters long. *)
Lemma extract_events_content soup ev :
  ev ∈ extract_events soup -> length (ev_content ev) <= 3000.
Proof.
  unfold extract_events. generalize sections. intros secs.
  induction secs as [|[n kws] secs IH]; simpl.
  - intros H. by apply elem_of_nil in H.
  - destruct (section_event n kws soup) as [ev'|] eqn:E; [|exact IH].
    intros [->|H]%elem_of_cons; [|by apply IH].
    by eapply section_event_content.
Qed.

Lemma sections_names_NoDup : NoDup (map fst sections).
Proof. apply (bool_decide_unpack _). vm_compute. reflexivity. Qed.

(** C7. For every document the extractor emits at most five events, no two
    of them of the same category (at most one event per category), and every
    category is one of the five of the fixed list, in the order of that
    list. *)
Theorem extract_events_at_most_one_per_category (soup : Node) :
  length (extract_events soup) <= 5 /\
  NoDup (map ev_type (extract_events soup)) /\
  map ev_type (extract_events soup) `sublist_of` map fst sections.
Proof.
  pose proof (events_of_types sections soup) as Hsub.
  fold (extract_events soup) in Hsub.
  split; [|split].
  - apply sublist_length in Hsub. rewrite !length_map in Hsub. exact Hsub.
  - exact (sublist_NoDup _ _ sections_names_NoDup Hsub).
  - exact Hsub.
Qed.

(** C1, as stated, fails: the heading of [early_life_and_career] contains a
    keyword of "Early Life" and a keyword of "Career", and the extractor
    emits an event for it under both categories. *)
Lemma heading_attributed_twice :
  let heading := Tag (py "h2") [] [Text (py "Early life and career")] in
  heading_with (py "early life") heading = true /\
  heading_with (py "career") heading = true /\
  extract_events early_life_and_career =
    [ {| ev_type := py "Early Life"; ev_content := py "Born in London." |};
      {| ev_type := py "Career"; ev_content := py "Born in London." |} ].
Proof. repeat split; vm_compute; reflexivity. Qed.

(** C1, amended. Each category is searched on its own, nothing records that
    a heading was used: when the heading that the keyword loop settles on is
    the same for two categories, and paragraphs follow it, the extractor
    emits the event of that heading under both categories, the category
    earlier in the fixed list first. *)
Theorem shared_heading_attributed_to_both
    (soup : Node) (before between after : list (pystr * list pystr))
    (name1 name2 : pystr) (keywords1 keywords2 : list pystr)
    (heading : Node) (siblings : list Node) :
  sections = before ++ (name1, keywords1) :: between ++ (name2, keywords2) :: after ->
  section_heading keywords1 soup = Some (heading, siblings) ->
  section_heading keywords2 soup = Some (heading, siblings) ->
  section_content siblings <> [] ->
  extract_events soup =
    events_of before soup
    ++ event_of name1 (section_content siblings)
    :: events_of between soup
    ++ event_of name2 (section_content siblings)
    :: events_of after soup.
Proof.
  intros Hsecs H1 H2 Hcontent.
  unfold extract_events. rewrite Hsecs.
  rewrite events_of_app. simpl. rewrite events_of_app. simpl.
  rewrite !section_event_heading, H1, H2.
  destruct (section_content siblings) eqn:E; [contradiction|].
  reflexivity.
Qed.

Lemma shared_heading_attributed_to_both_witness :
  extract_events early_life_and_career =
    [ event_of (py "Early Life") [py "Born in London."];
      event_of (py "Career") [py "Born in London."] ].
Proof.
  apply (shared_heading_attributed_to_both early_life_and_career
           [] [] (skipn 2 sections)
           (py "Early Life") (py "Career")
           [py "early life"; py "childhood"; py "education"]
           [py "career"; py "professional"; py "work"]
           (Tag (py "h2") [] [Text (py "Early life and career")])
           [Tag (py "p") [] [Text (py "Born in London.")]]).
  - reflexivity.
  - vm_compute. reflexivity.
  - vm_compute. reflexivity.
  - vm_compute. discriminate.
Defined.

(** ** Searching the tree *)

Lemma list_find_first {A} (p : A -> bool) (l : list A) (x : A) :
  List.find p l = Some x ->
  exists pre post, l = pre ++ x :: post /\ p x = true /\ Forall (fun y => p y = false) pre.
Proof.
  induction l as [|a l IH]; simpl; [discriminate|].
  destruct (p a) eqn:Ha.
  - intros [= ->]. exists [], l. auto.
  - intros H. destruct (IH H) as (pre & post & -> & Hx & Hpre).
    exists (a :: pre), post. auto.
Qed.

Lemma list_find_none {A} (p : A -> bool) (l : list A) :
  List.find p l = None -> Forall (fun y => p y = false) l.
Proof.
  induction l as [|a l IH]; simpl; [constructor|].
  destruct (p a) eqn:Ha; [discriminate|]. auto.
Qed.

(** [find] returns the first tag in document order that passes the filter. *)
Lemma find_first p soup tag siblings :
  find p soup = Some (tag, siblings) ->
  exists earlier later,
    descendants soup = earlier ++ (tag, siblings) :: later /\
    p tag = true /\ Forall (fun e => p e.1 = false) earlier.
Proof. intros H. apply list_find_first in H. exact H. Qed.

(** ** The profile panel *)

Lemma infobox_row_pair infobox row :
  infobox_row infobox row =
  match infobox_pair row with Some kv => put infobox kv | None => infobox end.
Proof.
  unfold infobox_row, infobox_pair.
  destruct (find (named (py "th")) row) as [[th ?]|]; [|reflexivity].
  destruct (find (named (py "td")) row) as [[td ?]|]; [|reflexivity].
  destruct (clean_text (get_text th)); [reflexivity|].
  destruct (clean_text (get_text td)); reflexivity.
Qed.

Lemma infobox_rows_pairs rows infobox :
  foldl infobox_row infobox rows = foldl put infobox (omap infobox_pair rows).
Proof.
  revert infobox. induction rows as [|row rows IH]; intros infobox; [reflexivity|].
  simpl. rewrite IH, infobox_row_pair.
  destruct (infobox_pair row); reflexivity.
Qed.

Lemma put_all_other (pairs : list (pystr * pystr)) (m : gmap pystr pystr) key :
  key ∉ pairs.*1 -> foldl put m pairs !! key = m !! key.
Proof.
  revert m. induction pairs as [|[k v] pairs IH]; intros m Hk; [reflexivity|].
  simpl in *. apply not_elem_of_cons in Hk as [Hne Hk].
  rewrite IH by exact Hk. unfold put. simpl. by rewrite lookup_insert_ne.
Qed.

Lemma put_all_last (pairs pre post : list (pystr * pystr)) (m : gmap pystr pystr)
    key value :
  pairs = pre ++ (key, value) :: post -> key ∉ post.*1 ->
  foldl put m pairs !! key = Some value.
Proof.
  intros -> Hk. rewrite foldl_app. simpl.
  rewrite put_all_other by exact Hk.
  unfold put at 1. simpl. by rewrite lookup_insert_eq.
Qed.

Lemma put_all_origin (pairs : list (pystr * pystr)) (m : gmap pystr pystr) key value :
  foldl put m pairs !! key = Some value ->
  (key, value) ∈ pairs \/ m !! key = Some value.
Proof.
  revert m. induction pairs as [|[k v] pairs IH]; intros m H; [by right|].
  simpl in H. apply IH in H as [H|H].
  - left. by apply elem_of_cons; right.
  - unfold put in H. simpl in H. destruct (decide (k = key)) as [->|Hne].
    + rewrite lookup_insert_eq in H. injection H as ->. left. by apply elem_of_cons; left.
    + rewrite lookup_insert_ne in H by exact Hne. by right.
Qed.

Lemma put_all_dom (pairs : list (pystr * pystr)) (m : gmap pystr pystr) :
  dom (foldl put m pairs) = dom m ∪ list_to_set pairs.*1.
Proof.
  revert m. induction pairs as [|[k v] pairs IH]; intros m; simpl.
  - set_solver.
  - rewrite IH. unfold put. simpl. rewrite dom_insert_L. set_solver.
Qed.

Lemma size_list_to_set_distinct (l : list pystr) :
  size (list_to_set l : gset pystr) = length (remove_dups l).
Proof.
  rewrite <- (size_list_to_set (C := gset pystr) (remove_dups l))
    by apply NoDup_remove_dups.
  f_equal. apply set_eq. intros x.
  rewrite !elem_of_list_to_set. symmetry. apply elem_of_remove_dups.
Qed.

Lemma remove_dups_length (l : list pystr) : length (remove_dups l) <= length l.
Proof.
  induction l as [|x l IH]; simpl; [lia|].
  destruct (decide_rel _ x l); simpl; lia.
Qed.

Lemma remove_dups_shorter (l : list pystr) :
  ¬ NoDup l -> length (remove_dups l) < length l.
Proof.
  induction l as [|x l IH]; simpl; intros Hdup.
  - destruct Hdup. constructor.
  - pose proof (remove_dups_length l).
    destruct (decide_rel _ x l) as [Hin|Hnin]; simpl; [lia|].
    apply -> Nat.succ_lt_mono. apply IH. intros Hnd. apply Hdup. by constructor.
Qed.

Lemma infobox_pair_inv row key value :
  infobox_pair row = Some (key, value) ->
  key <> [] /\ value <> [] /\
  exists th td after_th after_td,
    find (named (py "th")) row = Some (th, after_th) /\
    find (named (py "td")) row = Some (td, after_td) /\
    key = clean_text (get_text th) /\ value = clean_text (get_text td).
Proof.
  unfold infobox_pair.
  destruct (find (named (py "th")) row) as [[th s1]|]; [|discriminate].
  destruct (find (named (py "td")) row) as [[td s2]|]; [|discriminate].
  destruct (clean_text (get_text th)) eqn:Ek; [discriminate|].
  destruct (clean_text (get_text td)) eqn:Ev; [discriminate|].
  intros [= <- <-]. repeat split; try discriminate.
  exists th, td, s1, s2. rewrite Ek, Ev. auto.
Qed.

Lemma extract_infobox_pairs soup table siblings :
  find is_infobox_table soup = Some (table, siblings) ->
  extract_infobox soup =
  foldl put ∅ (omap infobox_pair (find_all (named (py "tr")) table)).
Proof. intros H. unfold extract_infobox. rewrite H. apply infobox_rows_pairs. Qed.

(** ** [get_person_data]: the paths through the method *)

Lemma get_person_data_total remote name :
  exists data, get_person_data remote name = Return data.
Proof.
  unfold get_person_data, try_except.
  match goal with |- exists _, match ?b with _ => _ end = _ => destruct b end; eauto.
Qed.

Lemma get_person_data_success remote name response soup raw :
  page_exists remote (page_title name) = Return true ->
  session_get remote (page_url name) = Return response ->
  html_parse remote (text response) = Return soup ->
  page_summary remote (page_title name) = Return raw ->
  get_person_data remote name =
  Return (Success (take 3000 raw) (extract_infobox soup) (extract_events soup)
                  (page_url name)).
Proof.
  intros He Hg Hp Hs. unfold get_person_data, mbind, outcome_bind, try_except.
  rewrite He. simpl. rewrite Hg, Hp, Hs. reflexivity.
Qed.

Lemma get_person_data_success_inv remote name summary infobox events url :
  get_person_data remote name = Return (Success summary infobox events url) ->
  exists response soup raw,
    page_exists remote (page_title name) = Return true /\
    session_get remote (page_url name) = Return response /\
    html_parse remote (text response) = Return soup /\
    page_summary remote (page_title name) = Return raw /\
    summary = take 3000 raw /\ infobox = extract_infobox soup /\
    events = extract_events soup /\ url = page_url name.
Proof.
  unfold get_person_data, mbind, outcome_bind, try_except.
  destruct (page_exists remote (page_title name)) as [[|]|]; simpl; try discriminate.
  destruct (session_get remote (page_url name)) as [response|]; try discriminate.
  destruct (html_parse remote (text response)) as [soup|] eqn:Hp; try discriminate.
  destruct (page_summary remote (page_title name)) as [raw|]; try discriminate.
  intros [= <- <- <- <-]. exists response, soup, raw. auto 10.
Qed.

(** C8. The profile panel is built from the first table with class
    [infobox] in document order, and from that table only: an entry of the
    panel is the cleaned header and cleaned data text of a row of that table
    that has both cells, and both texts are non-empty; every such row has
    its label in the panel. Without such a table the panel is empty, and the
    fetch still succeeds. *)
Theorem profile_panel_from_first_table (soup : Node) :
  (find is_infobox_table soup = None ->
   extract_infobox soup = ∅ /\
   forall remote name response raw,
     page_exists remote (page_title name) = Return true ->
     session_get remote (page_url name) = Return response ->
     html_parse remote (text response) = Return soup ->
     page_summary remote (page_title name) = Return raw ->
     get_person_data remote name =
     Return (Success (take 3000 raw) ∅ (extract_events soup) (page_url name))) /\
  (forall table siblings,
     find is_infobox_table soup = Some (table, siblings) ->
     let rows := find_all (named (py "tr")) table in
     (exists earlier later,
        descendants soup = earlier ++ (table, siblings) :: later /\
        is_infobox_table table = true /\
        Forall (fun e => is_infobox_table e.1 = false) earlier) /\
     extract_infobox soup = foldl infobox_row ∅ rows /\
     (forall key value,
        extract_infobox soup !! key = Some value ->
        key <> [] /\ value <> [] /\
        exists row th td after_th after_td,
          row ∈ rows /\
          find (named (py "th")) row = Some (th, after_th) /\
          find (named (py "td")) row = Some (td, after_td) /\
          key = clean_text (get_text th) /\ value = clean_text (get_text td)) /\
     (forall row th td after_th after_td,
        row ∈ rows ->
        find (named (py "th")) row = Some (th, after_th) ->
        find (named (py "td")) row = Some (td, after_td) ->
        clean_text (get_text th) <> [] -> clean_text (get_text td) <> [] ->
        is_Some (extract_infobox soup !! clean_text (get_text th)))).
Proof.
  split.
  - intros Hnone.
    assert (extract_infobox soup = ∅) as Hempty
      by (unfold extract_infobox; rewrite Hnone; reflexivity).
    split; [exact Hempty|]. intros remote name response raw He Hg Hp Hs.
    rewrite (get_person_data_success _ _ _ _ _ He Hg Hp Hs), Hempty. reflexivity.
  - intros table siblings Hfind rows.
    split; [exact (find_first _ _ _ _ Hfind)|].
    split; [unfold extract_infobox; rewrite Hfind; reflexivity|].
    rewrite (extract_infobox_pairs _ _ _ Hfind). fold rows.
    split.
    + intros key value Hl.
      apply put_all_origin in Hl as [Hin|Hl]; [|by rewrite lookup_empty in Hl].
      apply list_elem_of_omap in Hin as (row & Hrow & Hpair).
      apply infobox_pair_inv in Hpair as (Hk & Hv & th & td & s1 & s2 & H).
      split; [exact Hk|]. split; [exact Hv|].
      exists row, th, td, s1, s2. tauto.
    + intros row th td s1 s2 Hrow Hth Htd Hk Hv.
      apply elem_of_dom. rewrite put_all_dom, elem_of_union, elem_of_list_to_set.
      right. apply list_elem_of_fmap.
      exists (clean_text (get_text th), clean_text (get_text td)).
      split; [reflexivity|]. apply list_elem_of_omap. exists row.
      split; [exact Hrow|]. unfold infobox_pair. rewrite Hth, Htd.
      destruct (clean_text (get_text th)); [contradiction|].
      destruct (clean_text (get_text td)); [contradiction|]. reflexivity.
Qed.

Lemma profile_panel_from_first_table_witness :
  extract_infobox two_panels = {[ py "Born" := py "1816" ]} /\
  extract_infobox early_life_and_career = ∅.
Proof.
  split.
  - destruct (proj2 (profile_panel_from_first_table two_panels)
                first_panel [] eq_refl) as (_ & -> & _).
    vm_compute. reflexivity.
  - apply (proj1 (profile_panel_from_first_table early_life_and_career) eq_refl).
Defined.

(** C10. When several contributing rows of the first info-panel table have
    the same cleaned label, the panel maps the label to the cleaned value of
    the last of them, and the panel has as many entries as there are
    distinct cleaned labels, which is fewer than the contributing rows as
    soon as a label repeats. *)
Theorem repeated_label_last_row_wins (soup table : Node) (siblings : list Node) :
  find is_infobox_table soup = Some (table, siblings) ->
  let pairs := omap infobox_pair (find_all (named (py "tr")) table) in
  (forall earlier key value later,
     pairs = earlier ++ (key, value) :: later -> key ∉ later.*1 ->
     extract_infobox soup !! key = Some value) /\
  size (extract_infobox soup) = length (remove_dups pairs.*1) /\
  (¬ NoDup pairs.*1 -> size (extract_infobox soup) < length pairs).
Proof.
  intros Hfind pairs. rewrite (extract_infobox_pairs _ _ _ Hfind). fold pairs.
  split; [|split].
  - intros earlier key value later Hsplit Hlast.
    exact (put_all_last _ _ _ _ _ _ Hsplit Hlast).
  - rewrite <- size_dom, put_all_dom, dom_empty_L, (left_id_L ∅ (∪)).
    apply size_list_to_set_distinct.
  - intros Hdup.
    rewrite <- size_dom, put_all_dom, dom_empty_L, (left_id_L ∅ (∪)).
    rewrite size_list_to_set_distinct.
    apply remove_dups_shorter in Hdup. by rewrite length_fmap in Hdup.
Qed.

Lemma repeated_label_last_row_wins_witness :
  omap infobox_pair (find_all (named (py "tr")) first_panel) =
    [ (py "Born", py "1815"); (py "Born", py "1816") ] /\
  extract_infobox two_panels !! py "Born" = Some (py "1816") /\
  size (extract_infobox two_panels) = 1.
Proof.
  pose proof (repeated_label_last_row_wins two_panels first_panel [] eq_refl)
    as (Hlast & Hsize & _).
  split; [vm_compute; reflexivity|]. split.
  - apply (Hlast [(py "Born", py "1815")] (py "Born") (py "1816") []).
    + vm_compute. reflexivity.
    + apply not_elem_of_nil.
  - rewrite Hsize. vm_compute. reflexivity.
Defined.

(** ** Containment of faults *)

(** C3, as stated, fails for a non-success status: with [overloaded] the
    HTTP request is answered with status 503, no call raises, and the
    result is a success built from the body of that answer, not a
    failure. *)
Lemma non_success_status_is_no_failure :
  session_get overloaded (page_url (py "Ada Lovelace")) =
    Return {| status_code := 503; text := py "Service Unavailable" |} /\
  get_person_data overloaded (py "Ada Lovelace") =
    Return (Success (py "Ada Lovelace") ∅ []
                    (py "https://en.wikipedia.org/wiki/Ada_Lovelace")) /\
  forall msg, get_person_data overloaded (py "Ada Lovelace") <> Return (Failure msg).
Proof.
  assert (H : get_person_data overloaded (py "Ada Lovelace") =
              Return (Success (py "Ada Lovelace") ∅ []
                              (py "https://en.wikipedia.org/wiki/Ada_Lovelace")))
    by reflexivity.
  split; [reflexivity|]. split; [exact H|].
  intros msg. rewrite H. discriminate.
Qed.

(** C3, amended. [get_person_data] always returns a value and never
    raises: a missing page gives the failure "Page not found", and
    whichever remote call raises (the existence check, the HTTP request,
    the parser or the summary), the result is the failure that carries the
    message of that fault. A status code is never looked at: when the
    calls return, the result is the success built from the text of the
    response, whatever its status. *)
Theorem get_person_data_contains_faults (remote : Remote) (name : pystr) :
  (exists data, get_person_data remote name = Return data) /\
  (page_exists remote (page_title name) = Return false ->
   get_person_data remote name = Return (Failure (py "Page not found"))) /\
  (forall msg,
     page_exists remote (page_title name) = Raise msg ->
     get_person_data remote name = Return (Failure msg)) /\
  (forall msg,
     page_exists remote (page_title name) = Return true ->
     session_get remote (page_url name) = Raise msg ->
     get_person_data remote name = Return (Failure msg)) /\
  (forall msg response,
     page_exists remote (page_title name) = Return true ->
     session_get remote (page_url name) = Return response ->
     html_parse remote (text response) = Raise msg ->
     get_person_data remote name = Return (Failure msg)) /\
  (forall msg response soup,
     page_exists remote (page_title name) = Return true ->
     session_get remote (page_url name) = Return response ->
     html_parse remote (text response) = Return soup ->
     page_summary remote (page_title name) = Raise msg ->
     get_person_data remote name = Return (Failure msg)) /\
  (forall status body soup raw,
     page_exists remote (page_title name) = Return true ->
     session_get remote (page_url name) =
       Return {| status_code := status; text := body |} ->
     html_parse remote body = Return soup ->
     page_summary remote (page_title name) = Return raw ->
     get_person_data remote name =
       Return (Success (take 3000 raw) (extract_infobox soup) (extract_events soup)
                       (page_url name))).
Proof.
  split; [apply get_person_data_total|].
  unfold get_person_data, mbind, outcome_bind, try_except.
  repeat apply conj.
  - intros ->. reflexivity.
  - intros msg ->. reflexivity.
  - intros msg -> ->. reflexivity.
  - intros msg response -> -> ->. reflexivity.
  - intros msg response soup -> -> -> ->. reflexivity.
  - intros status body soup raw -> -> Hp ->. simpl. rewrite Hp. reflexivity.
Qed.

Lemma get_person_data_contains_faults_witness :
  get_person_data nobody_known (py "Unknown Person XYZ123") =
    Return (Failure (py "Page not found")) /\
  get_person_data unreachable (py "Ada Lovelace") =
    Return (Failure (py "Read timed out.")).
Proof.
  split.
  - apply (proj1 (proj2 (get_person_data_contains_faults nobody_known
                           (py "Unknown Person XYZ123")))).
    reflexivity.
  - apply (proj1 (proj2 (proj2 (get_person_data_contains_faults unreachable
                                  (py "Ada Lovelace"))))).
    reflexivity.
Defined.

(** ** Result rows *)

Lemma infobox_columns_other (infobox : gmap pystr pystr) (base : gmap pystr Value) key :
  (forall label, key <> py "Infobox_" ++ label) ->
  map_fold add_infobox_column base infobox !! key = base !! key.
Proof.
  intros Hkey.
  apply (map_fold_weak_ind (fun result _ => result !! key = base !! key)).
  - reflexivity.
  - intros label value m result _ IH. unfold add_infobox_column.
    rewrite lookup_insert_ne; [exact IH|]. intros E. by apply (Hkey label).
Qed.

(** A key that is neither ['Events'] nor a panel column is read from the
    fixed columns. *)
Lemma result_row_fixed person data key :
  key <> py "Events" -> (forall label, key <> py "Infobox_" ++ label) ->
  result_row person data !! key = base_fields person data !! key.
Proof.
  intros Hev Hkey. unfold result_row.
  rewrite lookup_insert_ne by (intros E; by apply Hev).
  by apply infobox_columns_other.
Qed.

Lemma result_row_events person data :
  events_of_row (result_row person data) = data_events data.
Proof. unfold events_of_row, result_row. by rewrite lookup_insert_eq. Qed.

Lemma result_row_summary person data :
  result_row person data !! py "Summary" = Some (VStr (data_summary data)).
Proof.
  rewrite result_row_fixed; [reflexivity|discriminate|discriminate].
Qed.

(** C9. The summary of a successful result is the first 3000 characters of
    the summary the service returned, unchanged (the whole of it when it is
    no longer than that): it does not go through [clean_text], and it is
    what the row carries under ['Summary']. *)
Theorem summary_is_raw_prefix
    (remote : Remote) (name summary : pystr) (infobox : gmap pystr pystr)
    (events : list Event) (url : pystr) :
  get_person_data remote name = Return (Success summary infobox events url) ->
  exists raw,
    page_summary remote (page_title name) = Return raw /\
    summary = take 3000 raw /\
    (length raw <= 3000 -> summary = raw) /\
    forall person,
      result_row person (Success summary infobox events url) !! py "Summary"
      = Some (VStr (take 3000 raw)).
Proof.
  intros H.
  apply get_person_data_success_inv in H
    as (response & soup & raw & _ & _ & _ & Hs & -> & _).
  exists raw. split; [exact Hs|]. split; [reflexivity|]. split.
  - intros Hlen. by apply take_ge.
  - intros person. apply result_row_summary.
Qed.

Lemma summary_is_raw_prefix_witness :
  exists raw,
    page_summary one_page (page_title (py "Ada Lovelace")) = Return raw /\
    raw = py "Ada[1]  Lovelace was a mathematician." /\
    clean_text raw = py "Ada Lovelace was a mathematician." /\
    get_person_data one_page (py "Ada Lovelace") =
      Return (Success raw (extract_infobox early_life_and_career)
                      (extract_events early_life_and_career)
                      (page_url (py "Ada Lovelace"))).
Proof.
  destruct (summary_is_raw_prefix one_page (py "Ada Lovelace")
              (py "Ada[1]  Lovelace was a mathematician.")
              (extract_infobox early_life_and_career)
              (extract_events early_life_and_career)
              (page_url (py "Ada Lovelace")) eq_refl)
    as (raw & Hraw & Hsum & _).
  exists raw. split; [exact Hraw|].
  injection Hraw as <-.
  split; [reflexivity|]. split; [vm_compute; reflexivity|reflexivity].
Defined.

(** ** Row expansion *)

Lemma base_fields_no_event_type person data :
  base_fields person data !! py "Event_Type" = None.
Proof. unfold base_fields. by rewrite !lookup_insert_ne, lookup_empty by discriminate. Qed.

Lemma base_fields_no_event_details person data :
  base_fields person data !! py "Event_Details" = None.
Proof. unfold base_fields. by rewrite !lookup_insert_ne, lookup_empty by discriminate. Qed.

(** The rows of the final table are the rows of each result, result after
    result. *)
Lemma expand_events_app results1 results2 :
  expand_events (results1 ++ results2) =
  expand_events results1 ++ expand_events results2.
Proof. unfold expand_events. by rewrite map_app, concat_app. Qed.

Lemma expand_events_cons result rest :
  expand_events (result :: rest) = expand_person result ++ expand_events rest.
Proof. reflexivity. Qed.

(** ** The loop over the completed futures *)

Lemma collect_snoc completed future :
  collect (completed ++ [future]) = consume (collect completed) future.
Proof. unfold collect. by rewrite foldl_app. Qed.


Lemma checkpoints_snoc {A} (rs : list A) (r : A) :
  checkpoints (rs ++ [r]) =
  if length (rs ++ [r]) mod CHECKPOINT_EVERY =? 0
  then checkpoints rs ++ [rs ++ [r]]
  else checkpoints rs.
Proof.
  unfold checkpoints, CHECKPOINT_EVERY. rewrite length_app. simpl length.
  set (n := length rs).
  pose proof (Nat.div_mod_eq n 25) as Hn.
  pose proof (Nat.mod_upper_bound n 25 ltac:(lia)) as Hn'.
  pose proof (Nat.div_mod_eq (n + 1) 25) as Hs.
  pose proof (Nat.mod_upper_bound (n + 1) 25 ltac:(lia)) as Hs'.
  assert (Hold : forall q, 25 * q <= n ->
            (fun j => take (25 * j) (rs ++ [r])) <$> seq 1 q =
            (fun j => take (25 * j) rs) <$> seq 1 q).
  { intros q Hq. apply list_fmap_ext. intros i j Hj.
    apply lookup_seq in Hj as [-> Hi]. apply take_app_le. fold n. lia. }
  destruct (Nat.eqb_spec ((n + 1) mod 25) 0) as [Hz|Hnz].
  - replace ((n + 1) / 25) with (S (n / 25)) by lia.
    rewrite seq_S, fmap_app, Hold by lia. f_equal.
    change ([take (25 * (1 + n / 25)) (rs ++ [r])] = [rs ++ [r]]).
    f_equal. apply take_ge. rewrite length_app. simpl length. fold n. lia.
  - replace ((n + 1) / 25) with (n / 25) by lia. apply Hold. lia.
Qed.

(** What the loop leaves: the returned results in completion order, one
    snapshot per full multiple of the interval, one line per fault. *)
Lemma collect_spec (completed : list (outcome (gmap pystr Value))) :
  results (collect completed) = returned completed /\
  written (collect completed) = checkpoints (returned completed) /\
  printed (collect completed) = error_line <$> raised completed.
Proof.
  induction completed as [|future completed (IHr & IHw & IHp)] using rev_ind.
  - repeat split.
  - rewrite collect_snoc. unfold returned, raised in *. rewrite !omap_app.
    destruct future as [result|msg]; simpl.
    + rewrite !app_nil_r, IHr, IHp.
      fold (returned completed). rewrite checkpoints_snoc.
      destruct (_ =? 0); simpl; rewrite ?IHw; auto.
    + rewrite !app_nil_r, IHr, IHw, IHp, fmap_app. auto.
Qed.


(** C2. For a person whose task returned a result with [k] events, the
    final table holds, in one run, [max k 1] rows for that person, between
    the rows of the results before and after. With [k >= 1] the rows are,
    event by event, the person's row without ['Events'], with the event's
    category and content set; so they agree with it, and with one another,
    on every other field. With no event, and for every failure, the only
    row is the person's row without ['Events'], which has neither event
    field. *)
Theorem rows_per_person
    (person : gmap pystr pystr) (data : PersonData)
    (before after : list (outcome (gmap pystr Value))) :
  let result := result_row person data in
  let base_info := delete (py "Events") result in
  let events := data_events data in
  let rows := match events with
              | [] => [base_info]
              | _ :: _ => map (event_row base_info) events
              end in
  (main_loop (before ++ Return result :: after)).2 =
    expand_events (returned before) ++ rows ++ expand_events (returned after) /\
  expand_events [result] = rows /\
  length rows = max (length events) 1 /\
  length (expand_person result) = max (length events) 1 /\
  (events <> [] -> expand_person result = map (event_row base_info) events) /\
  (events = [] -> expand_person result = [base_info]) /\
  (forall error, data = Failure error -> expand_person result = [base_info]) /\
  (forall event key,
     key <> py "Event_Type" -> key <> py "Event_Details" ->
     event_row base_info event !! key = base_info !! key) /\
  (forall event,
     event_row base_info event !! py "Event_Type" = Some (VStr (ev_type event)) /\
     event_row base_info event !! py "Event_Details" = Some (VStr (ev_content event))) /\
  base_info !! py "Event_Type" = None /\
  base_info !! py "Event_Details" = None /\
  base_info !! py "Events" = None.
Proof.
  intros result base_info events rows.
  assert (Hexp : expand_person result = rows).
  { unfold expand_person. subst result. rewrite result_row_events.
    fold events. subst rows. destruct events; reflexivity. }
  assert (Hlen : length rows = max (length events) 1).
  { subst rows. destruct events; [reflexivity|]. rewrite length_map. simpl. lia. }
  repeat apply conj.
  - unfold main_loop. simpl.
    destruct (collect_spec (before ++ Return result :: after)) as (-> & _).
    unfold returned at 1. rewrite omap_app. simpl.
    rewrite expand_events_app, expand_events_cons, Hexp. reflexivity.
  - rewrite expand_events_cons, Hexp. apply app_nil_r.
  - exact Hlen.
  - by rewrite Hexp.
  - intros Hne. rewrite Hexp. subst rows. destruct events; [contradiction|reflexivity].
  - intros Hnil. rewrite Hexp. subst rows. by rewrite Hnil.
  - intros error Hdata. rewrite Hexp. subst rows events. by rewrite Hdata.
  - intros event key H1 H2. unfold event_row.
    by rewrite !lookup_insert_ne.
  - intros event. unfold event_row. split.
    + by rewrite lookup_insert_ne, lookup_insert_eq by discriminate.
    + by rewrite lookup_insert_eq.
  - subst base_info result. rewrite lookup_delete_ne by discriminate.
    rewrite result_row_fixed by discriminate. apply base_fields_no_event_type.
  - subst base_info result. rewrite lookup_delete_ne by discriminate.
    rewrite result_row_fixed by discriminate. apply base_fields_no_event_details.
  - apply lookup_delete_eq.
Qed.

Lemma rows_per_person_witness :
  let data := Success (py "Ada") ∅ (extract_events early_life_and_career) [] in
  let missing := Failure (py "Page not found") in
  length (main_loop ([Raise (py "boom")] ++ Return (result_row ada data) :: [])).2 = 2 /\
  (main_loop ([] ++ Return (result_row ada missing) :: [])).2 =
    [delete (py "Events") (result_row ada missing)].
Proof.
  intros data missing. split.
  - rewrite (proj1 (rows_per_person ada data [Raise (py "boom")] [])).
    vm_compute. reflexivity.
  - rewrite (proj1 (rows_per_person ada missing [] [])). reflexivity.
Defined.






(** ** Further properties of the text cleaning *)

Lemma sub_citations_cons c r :
  sub_citations (c :: r) =
  match match_citation (c :: r) with
  | Some rest => sub_citations rest
  | None => c :: sub_citations r
  end.
Proof.
  simp sub_citations.
  generalize (inspect (match_citation (c :: r))).
  intros [[rest|] H]; simp sub_citations; rewrite H; reflexivity.
Qed.

Lemma sub_citations_length s : length (sub_citations s) <= length s.
Proof.
  remember (length s) as n eqn:Hn. revert s Hn.
  induction n as [n IH] using lt_wf_ind. intros [|c r] ->; [simp sub_citations; simpl; lia|].
  rewrite sub_citations_cons.
  destruct (match_citation (c :: r)) as [rest|] eqn:E.
  - apply match_citation_shorter in E.
    pose proof (IH (length rest) E rest eq_refl). lia.
  - simpl. pose proof (IH (length r) ltac:(simpl; lia) r eq_refl). lia.
Qed.

Lemma collapse_spaces_length s : length (collapse_spaces s) <= length s.
Proof.
  induction s as [|c r IH]; simpl; [lia|].
  destruct (Char.isspace c); [destruct r as [|c' r']|]; simpl in *; try lia.
  destruct (Char.isspace c'); simpl in *; lia.
Qed.

Lemma strip_length s : length (strip s) <= length s.
Proof.
  destruct (strip_infix s) as (k1 & k2 & H).
  rewrite H at 2. rewrite !length_app. lia.
Qed.

(** X2. Cleaning never lengthens a text, and never returns more than 2000
    characters. *)
Theorem clean_text_never_longer (s : pystr) :
  length (clean_text s) <= length s /\ length (clean_text s) <= 2000.
Proof.
  split; [|apply clean_text_length].
  unfold clean_text. destruct s as [|c s]; [simpl; lia|].
  rewrite length_take.
  pose proof (strip_length (collapse_spaces (sub_citations (c :: s)))).
  pose proof (collapse_spaces_length (sub_citations (c :: s))).
  pose proof (sub_citations_length (c :: s)). lia.
Qed.

(** [rstrip], one character at a time. *)
Lemma dropwhile_snoc {A} (p : A -> bool) (l : list A) (a : A) :
  dropwhile p (l ++ [a]) =
  match dropwhile p l with
  | [] => if p a then [] else [a]
  | kept => kept ++ [a]
  end.
Proof.
  induction l as [|b l IH]; simpl; [reflexivity|].
  destruct (p b); [exact IH|reflexivity].
Qed.

Lemma rstrip_snoc s c :
  rstrip (s ++ [c]) = if Char.isspace c then rstrip s else s ++ [c].
Proof.
  unfold rstrip. rewrite rev_app_distr. simpl.
  destruct (Char.isspace c); [reflexivity|]. simpl. by rewrite rev_involutive.
Qed.

Lemma rstrip_cons c s :
  Char.isspace c = false -> rstrip (c :: s) = c :: rstrip s.
Proof.
  intros Hc. induction s as [|d s IH] using rev_ind.
  - unfold rstrip. simpl. by rewrite Hc.
  - rewrite app_comm_cons, !rstrip_snoc. destruct (Char.isspace d); [exact IH|reflexivity].
Qed.

Lemma rstrip_last s init c :
  rstrip s = init ++ [c] -> Char.isspace c = false.
Proof.
  induction s as [|d s IH] using rev_ind.
  - unfold rstrip. simpl. intros H. by destruct init.
  - rewrite rstrip_snoc. destruct (Char.isspace d) eqn:Hd; [exact IH|].
    intros [_ [= <-]]%app_inj_tail. exact Hd.
Qed.

Lemma lstrip_head s c rest : lstrip s = c :: rest -> Char.isspace c = false.
Proof.
  unfold lstrip. induction s as [|d s IH]; simpl; [discriminate|].
  destruct (Char.isspace d) eqn:Hd; [exact IH|]. by intros [= <- _].
Qed.

Lemma strip_head s c rest : strip s = c :: rest -> Char.isspace c = false.
Proof.
  unfold strip. destruct (lstrip s) as [|d t] eqn:E.
  - unfold rstrip. simpl. discriminate.
  - pose proof (lstrip_head _ _ _ E) as Hd.
    rewrite (rstrip_cons _ _ Hd). by intros [= <- _].
Qed.

Lemma clean_text_head s c rest : clean_text s = c :: rest -> Char.isspace c = false.
Proof.
  unfold clean_text. destruct s as [|a s]; [discriminate|].
  destruct (strip (collapse_spaces (sub_citations (a :: s)))) as [|d t'] eqn:E;
    [discriminate|].
  simpl. intros [= <- _]. exact (strip_head _ _ _ E).
Qed.

Lemma clean_text_last s init c :
  clean_text s = init ++ [c] -> length (clean_text s) < 2000 ->
  Char.isspace c = false.
Proof.
  unfold clean_text. destruct s as [|a s]; [by destruct init|].
  intros H Hlen. rewrite length_take in Hlen.
  rewrite take_ge in H by lia. exact (rstrip_last _ _ _ H).
Qed.

(** X3. A cleaned text never starts with whitespace, and it ends with
    whitespace only if it was cut at 2000 characters. *)
Theorem clean_text_trimmed (s : pystr) :
  (forall c rest, clean_text s = c :: rest -> Char.isspace c = false) /\
  (forall init c,
     clean_text s = init ++ [c] -> length (clean_text s) < 2000 ->
     Char.isspace c = false).
Proof.
  split.
  - intros c rest. apply clean_text_head.
  - intros init c. apply clean_text_last.
Qed.

Lemma collapse_spaces_plain s :
  Forall (fun c => Char.isspace c = true -> c = space) (collapse_spaces s).
Proof.
  induction s as [|c r IH]; [constructor|]. simpl.
  destruct (Char.isspace c) eqn:Hc.
  - destruct r as [|c' r']; [by repeat constructor|].
    destruct (Char.isspace c'); [exact IH|]. by constructor.
  - constructor; [congruence|exact IH].
Qed.

Lemma clean_text_plain s :
  Forall (fun c => Char.isspace c = true -> c = space) (clean_text s).
Proof.
  unfold clean_text. destruct s as [|a s]; [constructor|].
  set (u := sub_citations (a :: s)).
  pose proof (collapse_spaces_plain u) as Hu.
  destruct (strip_infix (collapse_spaces u)) as (k1 & k2 & Hk).
  rewrite Hk in Hu. apply Forall_app in Hu as [_ Hu]. apply Forall_app in Hu as [Hu _].
  by apply Forall_take.
Qed.

(** X1. In a cleaned text no whitespace character is followed by another
    whitespace character, and every whitespace character is a plain
    space. *)
Theorem clean_text_spacing (s : pystr) :
  (forall before a b after,
     clean_text s = before ++ a :: b :: after ->
     Char.isspace a = true -> Char.isspace b = false) /\
  (forall c, c ∈ clean_text s -> Char.isspace c = true -> c = space).
Proof.
  split.
  - intros before a b after H Ha.
    pose proof (clean_text_single_spaced s) as Hd. rewrite H in Hd.
    apply double_space_app_r in Hd. simpl in Hd.
    apply orb_false_iff in Hd as [Hd _]. by rewrite Ha in Hd.
  - intros c Hc. pose proof (clean_text_plain s) as H.
    rewrite Forall_forall in H. by apply H.
Qed.

Lemma clean_text_spacing_witness :
  Char.isspace "i"%char = false.
Proof.
  apply (proj1 (clean_text_spacing (py "Born  in[3] London"))
           (py "Born") " "%char "i"%char (py "n London")).
  - vm_compute. reflexivity.
  - reflexivity.
Defined.

Lemma match_citation_bracket s rest :
  match_citation s = Some rest -> exists r, s = lbracket :: r.
Proof.
  destruct s as [|c [|d r]]; simpl; try discriminate.
  destruct (Char.eqb c lbracket) eqn:E; [|discriminate].
  apply Ascii.eqb_eq in E as ->. eauto.
Qed.

Lemma sub_citations_no_bracket s :
  lbracket ∉ s -> sub_citations s = s.
Proof.
  induction s as [|c r IH]; intros Hs; [by simp sub_citations|].
  apply not_elem_of_cons in Hs as [Hc Hr].
  rewrite sub_citations_cons.
  destruct (match_citation (c :: r)) as [rest|] eqn:E.
  - apply match_citation_bracket in E as [r' [= -> _]]. contradiction.
  - by rewrite IH.
Qed.

Lemma sub_citations_plain_prefix pre s :
  lbracket ∉ pre -> sub_citations (pre ++ s) = pre ++ sub_citations s.
Proof.
  induction pre as [|c r IH]; intros Hs; [reflexivity|].
  apply not_elem_of_cons in Hs as [Hc Hr]. simpl.
  rewrite sub_citations_cons.
  destruct (match_citation (c :: r ++ s)) as [rest|] eqn:E.
  - apply match_citation_bracket in E as [r' [= -> _]]. contradiction.
  - by rewrite IH.
Qed.

Lemma dropwhile_app_stop {A} (p : A -> bool) (l : list A) (a : A) (k : list A) :
  Forall (fun x => p x = true) l -> p a = false ->
  dropwhile p (l ++ a :: k) = a :: k.
Proof.
  induction 1 as [|x l Hx _ IH]; intros Ha; simpl; [by rewrite Ha|].
  rewrite Hx. by apply IH.
Qed.

(** X6. A marker made of an opening bracket, one or more digits and a
    closing bracket is removed wherever the text before it has no opening
    bracket, and the text before it is kept as it is. *)
Theorem sub_citations_removes_marker (before digits after : pystr) :
  lbracket ∉ before -> digits <> [] ->
  Forall (fun c => Char.isdecimal c = true) digits ->
  sub_citations (before ++ lbracket :: digits ++ rbracket :: after) =
  before ++ sub_citations after.
Proof.
  intros Hb Hne Hd. rewrite (sub_citations_plain_prefix _ _ Hb). f_equal.
  rewrite sub_citations_cons.
  destruct digits as [|d ds]; [contradiction|].
  apply Forall_cons in Hd as [Hd Hds].
  simpl. rewrite Hd. simpl.
  rewrite (dropwhile_app_stop Char.isdecimal ds rbracket after Hds eq_refl).
  reflexivity.
Qed.

Lemma sub_citations_removes_marker_witness :
  sub_citations (py "Born[12] in London") = py "Born in London".
Proof.
  apply (sub_citations_removes_marker (py "Born") (py "12") (py " in London")).
  - apply (bool_decide_unpack _). vm_compute. reflexivity.
  - discriminate.
  - repeat constructor.
Defined.

Lemma collapse_spaces_blank s :
  s <> [] -> Forall (fun c => Char.isspace c = true) s -> collapse_spaces s = [space].
Proof.
  induction s as [|c r IH]; intros Hne Hs; [contradiction|].
  apply Forall_cons in Hs as [Hc Hr]. simpl. rewrite Hc.
  destruct r as [|c' r']; [reflexivity|].
  pose proof Hr as Hr'. apply Forall_cons in Hr' as [Hc' _]. rewrite Hc'.
  by apply IH.
Qed.

(** X4. A text made of whitespace only is cleaned to the empty text. *)
Theorem clean_text_blank (s : pystr) :
  Forall (fun c => Char.isspace c = true) s -> clean_text s = [].
Proof.
  intros Hs. unfold clean_text. destruct s as [|c r]; [reflexivity|].
  rewrite sub_citations_no_bracket.
  - rewrite collapse_spaces_blank by (done || discriminate). reflexivity.
  - intros Hin. rewrite Forall_forall in Hs. apply Hs in Hin. discriminate.
Qed.

Lemma clean_text_blank_witness :
  clean_text [space; newline; space] = [].
Proof. apply clean_text_blank. repeat constructor. Defined.

Lemma sub_citations_nothing_to_remove t :
  has_citation t = false -> sub_citations t = t.
Proof.
  induction t as [|c r IH]; [by simp sub_citations|].
  simpl. intros [Hc Hr]%orb_false_iff. rewrite sub_citations_cons.
  unfold citation_at in Hc.
  destruct (match_citation (c :: r)); [discriminate|]. by rewrite IH.
Qed.

Lemma collapse_spaces_fixed t :
  double_space t = false ->
  Forall (fun c => Char.isspace c = true -> c = space) t ->
  collapse_spaces t = t.
Proof.
  induction t as [|c r IH]; [reflexivity|].
  intros Hd [Hc Hr]%Forall_cons. simpl in *.
  destruct r as [|c' r'].
  - destruct (Char.isspace c); [by rewrite Hc|reflexivity].
  - apply orb_false_iff in Hd as [Hcc Hd].
    destruct (Char.isspace c) eqn:E.
    + simpl in Hcc. rewrite Hcc, (Hc eq_refl). f_equal. by apply IH.
    + f_equal. by apply IH.
Qed.

Lemma strip_fixed t :
  (forall c rest, t = c :: rest -> Char.isspace c = false) ->
  (forall init c, t = init ++ [c] -> Char.isspace c = false) ->
  strip t = t.
Proof.
  intros Hhead Hlast. unfold strip.
  assert (lstrip t = t) as ->.
  { unfold lstrip. destruct t as [|c r]; [reflexivity|].
    simpl. by rewrite (Hhead c r eq_refl). }
  destruct t as [|c r _] using rev_ind; [reflexivity|].
  by rewrite rstrip_snoc, (Hlast r c eq_refl).
Qed.

(** X5. Cleaning a cleaned text again changes nothing, provided that no
    citation marker was left in it and that it was not cut at 2000
    characters. *)
Theorem clean_text_idempotent (s : pystr) :
  has_citation (clean_text s) = false -> length (clean_text s) < 2000 ->
  clean_text (clean_text s) = clean_text s.
Proof.
  intros Hcit Hlen.
  pose proof (clean_text_head s) as Hhead.
  pose proof (clean_text_last s) as Hlast.
  pose proof (clean_text_single_spaced s) as Hsingle.
  pose proof (clean_text_plain s) as Hplain.
  destruct (clean_text s) as [|c t] eqn:E; [reflexivity|].
  unfold clean_text at 1.
  rewrite (sub_citations_nothing_to_remove _ Hcit).
  rewrite (collapse_spaces_fixed _ Hsingle Hplain).
  rewrite strip_fixed.
  - apply take_ge. lia.
  - exact Hhead.
  - intros init d H. by apply (Hlast init d).
Qed.

Lemma clean_text_idempotent_witness :
  clean_text (clean_text (py " Born[12]  in London ")) =
  clean_text (py " Born[12]  in London ").
Proof.
  apply clean_text_idempotent.
  - vm_compute. reflexivity.
  - vm_compute. lia.
Defined.

Lemma clean_text_trimmed_witness :
  Char.isspace "B"%char = false /\ Char.isspace "n"%char = false.
Proof.
  destruct (clean_text_trimmed (py " Born[12]  in  London ")) as [Hhead Hlast].
  split.
  - apply (Hhead "B"%char (py "orn in London")). vm_compute. reflexivity.
  - apply (Hlast (py "Born in Londo") "n"%char).
    + vm_compute. reflexivity.
    + vm_compute. lia.
Defined.

(** ** Further properties of the section extraction *)

Lemma list_find_all_false {A} (p : A -> bool) (l : list A) :
  Forall (fun y => p y = false) l -> List.find p l = None.
Proof. induction 1 as [|a l Ha _ IH]; simpl; [reflexivity|]. by rewrite Ha. Qed.

Lemma section_event_no_heading section_name keywords soup :
  Forall (fun e => is_heading e.1 = false) (descendants soup) ->
  section_event section_name keywords soup = None.
Proof.
  intros Hno. induction keywords as [|kw kws IH]; simpl; [reflexivity|].
  unfold find. rewrite list_find_all_false; [exact IH|].
  eapply Forall_impl; [exact Hno|]. intros e He. unfold heading_with. by rewrite He.
Qed.

(** X7. A document without any [h2] or [h3] tag gives no event at all. *)
Theorem extract_events_without_headings (soup : Node) :
  Forall (fun e => is_heading e.1 = false) (descendants soup) ->
  extract_events soup = [].
Proof.
  intros Hno. unfold extract_events. generalize sections. intros secs.
  induction secs as [|[n kws] secs IH]; simpl; [reflexivity|].
  by rewrite section_event_no_heading.
Qed.

Lemma extract_events_without_headings_witness :
  extract_events two_panels = [].
Proof.
  apply extract_events_without_headings.
  apply (bool_decide_unpack _). vm_compute. reflexivity.
Defined.

(** X9. The paragraphs of a section end at the next [h2] or [h3] among the
    siblings: nothing that follows that heading is collected. *)
Theorem section_content_stops_at_heading (before after : list Node) (heading : Node) :
  is_heading heading = true ->
  section_content (before ++ heading :: after) = section_content before.
Proof.
  intros Hh. induction before as [|elem rest IH]; simpl.
  - destruct heading; [discriminate|]. by rewrite Hh.
  - destruct elem as [s|nm cls cs]; [exact IH|].
    destruct (is_heading (Tag nm cls cs)); [reflexivity|].
    by rewrite IH.
Qed.

Lemma section_content_stops_at_heading_witness :
  section_content
    [ Tag (py "p") [] [Text (py "Born.")];
      Tag (py "h3") [] [Text (py "Career")];
      Tag (py "p") [] [Text (py "Worked.")] ] = [py "Born."].
Proof.
  etrans.
  - exact (section_content_stops_at_heading
             [Tag (py "p") [] [Text (py "Born.")]]
             [Tag (py "p") [] [Text (py "Worked.")]]
             (Tag (py "h3") [] [Text (py "Career")]) eq_refl).
  - vm_compute. reflexivity.
Defined.

Lemma section_content_paragraphs siblings :
  Forall (fun text => text <> [] /\ length text <= 2000 /\ double_space text = false)
         (section_content siblings).
Proof.
  induction siblings as [|elem rest IH]; simpl; [constructor|].
  destruct elem as [s|nm cls cs]; [exact IH|].
  destruct (is_heading _); [constructor|].
  destruct (named _ _); [|exact IH].
  pose proof (clean_text_length (get_text (Tag nm cls cs))) as Hl.
  pose proof (clean_text_single_spaced (get_text (Tag nm cls cs))) as Hs.
  destruct (clean_text _) eqn:E; [exact IH|]. by constructor.
Qed.

Lemma join_nonempty sep (parts : list pystr) :
  parts <> [] -> Forall (fun p => p <> []) parts -> join sep parts <> [].
Proof.
  destruct parts as [|p rest]; [contradiction|].
  intros _ [Hp _]%Forall_cons. simpl.
  destruct rest; [exact Hp|]. destruct p; [contradiction|discriminate].
Qed.

(** X8. Every emitted event has a content that is not empty and is at most
    3000 characters long. *)
Theorem event_content_bounds (soup : Node) (ev : Event) :
  ev ∈ extract_events soup ->
  0 < length (ev_content ev) /\ length (ev_content ev) <= 3000.
Proof.
  intros Hev. split; [|by eapply extract_events_content].
  revert Hev. unfold extract_events. generalize sections. intros secs.
  induction secs as [|[n kws] secs IH]; simpl.
  - intros H. by apply elem_of_nil in H.
  - rewrite section_event_heading.
    destruct (section_heading kws soup) as [[h sibs]|]; [|exact IH].
    pose proof (section_content_paragraphs sibs) as Hpar.
    destruct (section_content sibs) as [|p ps] eqn:E; [exact IH|].
    intros [->|H]%elem_of_cons; [|by apply IH].
    change (ev_content (event_of n (p :: ps)))
      with (take 3000 (join [newline] (p :: ps))).
    assert (Hne : join [newline] (p :: ps) <> []).
    { apply join_nonempty; [discriminate|].
      eapply Forall_impl; [exact Hpar|]. by intros ? [? _]. }
    assert (0 < length (join [newline] (p :: ps)))
      by (destruct (join [newline] (p :: ps)); [contradiction|simpl; lia]).
    rewrite length_take. lia.
Qed.

Lemma event_content_bounds_witness :
  0 < length (py "Born in London.") /\ length (py "Born in London.") <= 3000.
Proof.
  apply (event_content_bounds early_life_and_career
           {| ev_type := py "Career"; ev_content := py "Born in London." |}).
  assert (extract_events early_life_and_career =
          [ {| ev_type := py "Early Life"; ev_content := py "Born in London." |};
            {| ev_type := py "Career"; ev_content := py "Born in London." |} ])
    as -> by (vm_compute; reflexivity).
  apply elem_of_cons. right. apply elem_of_cons. by left.
Defined.

(** ** Further properties of the profile panel *)

Lemma omap_length {A B} (f : A -> option B) (l : list A) :
  length (omap f l) <= length l.
Proof.
  induction l as [|a l IH]; [reflexivity|].
  change (omap f (a :: l)) with
    (match f a with Some b => b :: omap f l | None => omap f l end).
  destruct (f a); simpl length; lia.
Qed.

(** X10. Every label and every value of the profile panel is a cleaned
    text: not empty, at most 2000 characters, without two whitespace
    characters in a row. *)
Theorem panel_entries_are_cleaned (soup : Node) (key value : pystr) :
  extract_infobox soup !! key = Some value ->
  (0 < length key /\ length key <= 2000 /\ double_space key = false) /\
  (0 < length value /\ length value <= 2000 /\ double_space value = false).
Proof.
  unfold extract_infobox.
  destruct (find is_infobox_table soup) as [[table sibs]|];
    [|by rewrite lookup_empty].
  rewrite infobox_rows_pairs.
  intros [Hin|H]%put_all_origin; [|by rewrite lookup_empty in H].
  apply list_elem_of_omap in Hin as (row & _ & Hpair).
  apply infobox_pair_inv in Hpair as (Hk & Hv & th & td & _ & _ & _ & _ & -> & ->).
  split; (split; [|split; [apply clean_text_length|apply clean_text_single_spaced]]).
  - destruct (clean_text (get_text th)); [contradiction|simpl; lia].
  - destruct (clean_text (get_text td)); [contradiction|simpl; lia].
Qed.

Lemma panel_entries_are_cleaned_witness :
  0 < length (py "Born") /\ length (py "1816") <= 2000.
Proof.
  destruct (panel_entries_are_cleaned two_panels (py "Born") (py "1816"))
    as ((H1 & _) & (_ & H2 & _)).
  - vm_compute. reflexivity.
  - split; assumption.
Defined.

(** X11. The profile panel has at most one entry per row of the first
    info-panel table. *)
Theorem panel_size_at_most_rows (soup table : Node) (siblings : list Node) :
  find is_infobox_table soup = Some (table, siblings) ->
  size (extract_infobox soup) <= length (find_all (named (py "tr")) table).
Proof.
  intros Hfind. rewrite (extract_infobox_pairs _ _ _ Hfind).
  rewrite <- size_dom, put_all_dom, dom_empty_L, (left_id_L ∅ (∪)).
  rewrite size_list_to_set_distinct.
  etrans; [apply remove_dups_length|]. rewrite length_fmap. apply omap_length.
Qed.

Lemma panel_size_at_most_rows_witness :
  size (extract_infobox two_panels) <= 3.
Proof.
  apply (panel_size_at_most_rows two_panels first_panel [] eq_refl).
Defined.

(** ** Further properties of [get_person_data] and [process_person] *)

(** X12. The result is a success exactly when the page exists and the HTTP
    request, the parser and the summary all return; the success is then
    built from the text of the response whatever its status code, so that a
    non-success status is not a failure. *)
Theorem get_person_data_success_iff
    (remote : Remote) (name summary : pystr) (infobox : gmap pystr pystr)
    (events : list Event) (url : pystr) :
  get_person_data remote name = Return (Success summary infobox events url) <->
  exists response soup raw,
    page_exists remote (page_title name) = Return true /\
    session_get remote (page_url name) = Return response /\
    html_parse remote (text response) = Return soup /\
    page_summary remote (page_title name) = Return raw /\
    summary = take 3000 raw /\ infobox = extract_infobox soup /\
    events = extract_events soup /\ url = page_url name.
Proof.
  split; [apply get_person_data_success_inv|].
  intros (response & soup & raw & He & Hg & Hp & Hs & -> & -> & -> & ->).
  exact (get_person_data_success _ _ _ _ _ He Hg Hp Hs).
Qed.

Lemma get_person_data_success_iff_witness :
  get_person_data overloaded (py "Ada Lovelace") =
  Return (Success (py "Ada Lovelace") ∅ []
                  (py "https://en.wikipedia.org/wiki/Ada_Lovelace")).
Proof.
  apply get_person_data_success_iff.
  exists {| status_code := 503; text := py "Service Unavailable" |},
         (Tag (py "[document]") [] []), (py "Ada Lovelace").
  repeat split.
Defined.

(** X13. The title asked for has the length of the name and no space (every
    space has become an underscore); a name without spaces is its own title,
    so that computing the title twice changes nothing. *)
Theorem page_title_has_no_space (name : pystr) :
  length (page_title name) = length name /\
  (space ∉ page_title name) /\
  (space ∉ name -> page_title name = name) /\
  page_title (page_title name) = page_title name.
Proof.
  assert (Hno : forall s, space ∉ page_title s).
  { intros s. unfold page_title, replace_char. induction s as [|c s IH]; simpl.
    - apply not_elem_of_nil.
    - apply not_elem_of_cons. split; [|exact IH].
      destruct (Char.eqb c space) eqn:E; [discriminate|].
      intros <-. unfold Char.eqb in E. by rewrite Ascii.eqb_refl in E. }
  assert (Hid : forall s, space ∉ s -> page_title s = s).
  { intros s. unfold page_title, replace_char. induction s as [|c s IH]; simpl; [done|].
    intros [Hc Hs]%not_elem_of_cons. rewrite IH by exact Hs.
    destruct (Char.eqb c space) eqn:E; [|reflexivity].
    apply Ascii.eqb_eq in E. congruence. }
  split; [apply length_map|]. split; [apply Hno|]. split; [apply Hid|].
  apply Hid. apply Hno.
Qed.

Lemma page_title_has_no_space_witness :
  page_title (py "Ada_Lovelace") = py "Ada_Lovelace".
Proof.
  apply (proj1 (proj2 (proj2 (page_title_has_no_space (py "Ada_Lovelace"))))).
  apply (bool_decide_unpack _). vm_compute. reflexivity.
Defined.

Lemma process_person_named remote person name :
  person !! py "Name" = Some name ->
  exists data,
    get_person_data remote name = Return data /\
    process_person remote person = Return (result_row person data).
Proof.
  intros Hname. destruct (get_person_data_total remote name) as [data Hdata].
  exists data. split; [exact Hdata|].
  unfold process_person, subscript, mbind, outcome_bind.
  by rewrite Hname, Hdata.
Qed.

(** X14. [process_person] raises exactly when the record has no ['Name']
    key, and the message is then that of the [KeyError]; with a name it
    returns the row built from what [get_person_data] returned, whatever
    the remote services do. *)
Theorem process_person_raises_iff_no_name
    (remote : Remote) (person : gmap pystr pystr) :
  (forall msg,
     process_person remote person = Raise msg <->
     person !! py "Name" = None /\ msg = py "'Name'") /\
  (forall name,
     person !! py "Name" = Some name ->
     exists data,
       get_person_data remote name = Return data /\
       process_person remote person = Return (result_row person data)).
Proof.
  split; [|intros name; apply process_person_named].
  intros msg. destruct (person !! py "Name") as [name|] eqn:Hname.
  - destruct (process_person_named remote person name Hname) as (data & _ & ->).
    split; [discriminate|]. by intros [? _].
  - unfold process_person, subscript, mbind, outcome_bind. rewrite Hname.
    split; [intros [= <-]; by split|]. by intros [_ ->].
Qed.

Lemma process_person_raises_iff_no_name_witness :
  process_person one_page {[ py "Gender" := py "F" ]} = Raise (py "'Name'").
Proof.
  apply (proj1 (process_person_raises_iff_no_name one_page {[ py "Gender" := py "F" ]})).
  split; reflexivity.
Defined.

Lemma base_fields_no_infobox person data label :
  base_fields person data !! (py "Infobox_" ++ label) = None.
Proof. unfold base_fields. by rewrite !lookup_insert_ne, lookup_empty by discriminate. Qed.

(** X15. The row has one column per label of the panel, named by the label
    with the prefix "Infobox_" and holding the label's value, and no other
    column with that prefix. *)
Theorem result_row_panel_columns
    (person : gmap pystr pystr) (data : PersonData) (label : pystr) :
  result_row person data !! (py "Infobox_" ++ label) =
  VStr <$> data_infobox data !! label.
Proof.
  unfold result_row. rewrite lookup_insert_ne by discriminate.
  apply (map_fold_weak_ind
           (fun result (m : gmap pystr pystr) =>
              result !! (py "Infobox_" ++ label) = VStr <$> m !! label)).
  - by rewrite base_fields_no_infobox, lookup_empty.
  - intros key value m result _ IH. unfold add_infobox_column.
    destruct (decide (key = label)) as [->|Hne].
    + by rewrite !lookup_insert_eq.
    + rewrite !lookup_insert_ne; [exact IH|exact Hne|].
      intros E. by apply app_inv_head in E.
Qed.

(** X16. The fixed columns and the event list of a row do not depend on the
    panel: whatever labels the page has, also "Name" or "Error", the row
    keeps the roster fields, and the URL, summary and error of the data. *)
Theorem result_row_fixed_columns (person : gmap pystr pystr) (data : PersonData) :
  let row := result_row person data in
  row !! py "Name" = Some (VStr (default [] (person !! py "Name"))) /\
  row !! py "Gender" = Some (VStr (default [] (person !! py "Gender"))) /\
  row !! py "Birth_Date" =
    Some (VStr (default [] (person !! py "Day") ++ py "/" ++
                default [] (person !! py "Month") ++ py "/" ++
                default [] (person !! py "Year"))) /\
  row !! py "Birth_Time" = Some (VStr (default [] (person !! py "Time"))) /\
  row !! py "Birth_Location" = Some (VStr (default [] (person !! py "Location"))) /\
  row !! py "Latitude" = Some (VStr (default [] (person !! py "Latitude"))) /\
  row !! py "Longitude" = Some (VStr (default [] (person !! py "Longitude"))) /\
  row !! py "Time_Zone" = Some (VStr (default [] (person !! py "Time Zone"))) /\
  row !! py "Wikipedia_URL" = Some (VStr (data_url data)) /\
  row !! py "Summary" = Some (VStr (data_summary data)) /\
  row !! py "Error" = Some (VStr (data_error data)) /\
  row !! py "Events" = Some (VEvents (data_events data)).
Proof.
  intros row. subst row.
  repeat apply conj;
    try (rewrite result_row_fixed by discriminate; reflexivity).
  unfold result_row. by rewrite lookup_insert_eq.
Qed.

(** X17. A person whose page does not exist gets a row with the error
    "Page not found", an empty URL and summary, no panel column and no
    event; the row expands to exactly one output row, without event
    fields. *)
Theorem missing_page_gives_one_error_row
    (remote : Remote) (person : gmap pystr pystr) (name : pystr) :
  person !! py "Name" = Some name ->
  page_exists remote (page_title name) = Return false ->
  exists row,
    process_person remote person = Return row /\
    row !! py "Error" = Some (VStr (py "Page not found")) /\
    row !! py "Summary" = Some (VStr []) /\
    row !! py "Wikipedia_URL" = Some (VStr []) /\
    (forall label, row !! (py "Infobox_" ++ label) = None) /\
    expand_person row = [delete (py "Events") row] /\
    delete (py "Events") row !! py "Event_Type" = None /\
    delete (py "Events") row !! py "Event_Details" = None.
Proof.
  intros Hname Hmissing.
  assert (Hdata : get_person_data remote name = Return (Failure (py "Page not found"))).
  { unfold get_person_data, mbind, outcome_bind, try_except. by rewrite Hmissing. }
  exists (result_row person (Failure (py "Page not found"))).
  split.
  { unfold process_person, subscript, mbind, outcome_bind. by rewrite Hname, Hdata. }
  repeat apply conj; try (rewrite result_row_fixed by discriminate; reflexivity).
  - intros label.
    unfold result_row. rewrite lookup_insert_ne by discriminate.
    simpl data_infobox. rewrite map_fold_empty. apply base_fields_no_infobox.
  - unfold expand_person. by rewrite result_row_events.
  - rewrite lookup_delete_ne by discriminate.
    rewrite result_row_fixed by discriminate. apply base_fields_no_event_type.
  - rewrite lookup_delete_ne by discriminate.
    rewrite result_row_fixed by discriminate. apply base_fields_no_event_details.
Qed.

Lemma missing_page_gives_one_error_row_witness :
  exists row,
    process_person nobody_known ada = Return row /\
    row !! py "Error" = Some (VStr (py "Page not found")) /\
    length (expand_person row) = 1.
Proof.
  destruct (missing_page_gives_one_error_row nobody_known ada (py "Ada Lovelace")
              eq_refl eq_refl) as (row & Hrow & Herr & _ & _ & _ & Hexp & _).
  exists row. split; [exact Hrow|]. split; [exact Herr|]. by rewrite Hexp.
Defined.

(** ** Further properties of [main] *)

Lemma extract_events_length soup : length (extract_events soup) <= 5.
Proof.
  pose proof (events_of_types sections soup) as Hsub.
  apply sublist_length in Hsub. by rewrite !length_map in Hsub.
Qed.

Lemma get_person_data_events remote name data :
  get_person_data remote name = Return data -> length (data_events data) <= 5.
Proof.
  destruct data as [error|summary infobox events url]; simpl; [lia|].
  intros (_ & soup & _ & _ & _ & _ & _ & _ & _ & -> & _)%get_person_data_success_inv.
  apply extract_events_length.
Qed.

Lemma expand_person_result_row person data :
  length (expand_person (result_row person data)) = max (length (data_events data)) 1.
Proof.
  unfold expand_person. rewrite result_row_events.
  destruct (data_events data); [reflexivity|]. rewrite length_map. simpl. lia.
Qed.

Lemma returned_cons_return {A} (a : A) (completed : list (outcome A)) :
  returned (Return a :: completed) = a :: returned completed.
Proof. reflexivity. Qed.

Lemma returned_cons_raise {A} msg (completed : list (outcome A)) :
  returned (Raise msg :: completed) = returned completed.
Proof. reflexivity. Qed.

Lemma expand_person_name (result row : gmap pystr Value) :
  row ∈ expand_person result -> row !! py "Name" = result !! py "Name".
Proof.
  unfold expand_person. destruct (events_of_row result) as [|event events].
  - intros ->%list_elem_of_singleton. by rewrite lookup_delete_ne.
  - intros (ev & <- & _)%list_elem_of_In%in_map_iff.
    rewrite !lookup_insert_ne by discriminate. by rewrite lookup_delete_ne.
Qed.

Lemma process_person_rows remote roster :
  Forall (fun result => 1 <= length (expand_person result) <= 5)
         (returned (map (process_person remote) roster)).
Proof.
  induction roster as [|person roster IH]; simpl map; [constructor|].
  destruct (person !! py "Name") as [name|] eqn:Hname.
  - destruct (process_person_named remote person name Hname) as (data & Hdata & ->).
    rewrite returned_cons_return. constructor; [|exact IH].
    rewrite expand_person_result_row.
    apply get_person_data_events in Hdata. lia.
  - assert (process_person remote person = Raise (py "'Name'")) as ->.
    { unfold process_person, subscript, mbind, outcome_bind. by rewrite Hname. }
    by rewrite returned_cons_raise.
Qed.

(** X18. Whatever the services answer, the final table is made of one run
    of rows per person whose task returned, in the order of the results;
    the run of a person has at least one and at most five rows, and every
    row of it carries that person's name. *)
Theorem one_to_five_rows_per_result
    (remote : Remote) (roster : list (gmap pystr pystr)) :
  let people := results (main remote roster).1 in
  let table := (main remote roster).2 in
  table = concat (map expand_person people) /\
  Forall (fun result =>
            1 <= length (expand_person result) <= 5 /\
            forall row, row ∈ expand_person result ->
                        row !! py "Name" = result !! py "Name")
         people /\
  length people <= length table /\ length table <= 5 * length people.
Proof.
  unfold main, main_loop. simpl.
  destruct (collect_spec (map (process_person remote) roster)) as (-> & _ & _).
  pose proof (process_person_rows remote roster) as Hrows.
  split; [reflexivity|]. split.
  - eapply Forall_impl; [exact Hrows|]. intros result Hlen. split; [exact Hlen|].
    intros row. apply expand_person_name.
  - unfold expand_events.
    induction Hrows as [|result rs Hlen _ IH]; simpl; [lia|].
    rewrite length_app. lia.
Qed.

(** X19. No row of the final table has an ['Events'] key: the list of
    events of a person is replaced by the event fields of the rows. *)
Theorem output_rows_have_no_events_key
    (completed : list (outcome (gmap pystr Value))) (row : gmap pystr Value) :
  row ∈ (main_loop completed).2 -> row !! py "Events" = None.
Proof.
  unfold main_loop. simpl. generalize (results (collect completed)). intros rs.
  induction rs as [|person rs IH].
  - intros H. by apply elem_of_nil in H.
  - rewrite expand_events_cons. intros [H|H]%elem_of_app; [|by apply IH].
    unfold expand_person in H.
    destruct (events_of_row person) as [|event events].
    + apply list_elem_of_singleton in H as ->. apply lookup_delete_eq.
    + apply list_elem_of_In, in_map_iff in H as (ev & <- & _).
      rewrite !lookup_insert_ne by discriminate. apply lookup_delete_eq.
Qed.

Lemma output_rows_have_no_events_key_witness :
  Forall (fun row : gmap pystr Value => row !! py "Events" = None)
         (main_loop fault_then_ada).2.
Proof.
  apply Forall_forall. intros row Hrow.
  exact (output_rows_have_no_events_key fault_then_ada row Hrow).
Defined.

(** X20. A run writes one snapshot per 25 results appended and then the
    final table, which is the last thing written; with fewer than 25
    results the final table is the only write. *)
Theorem writes_of_a_run (completed : list (outcome (gmap pystr Value))) :
  let st := (main_loop completed).1 in
  length (written st) = length (returned completed) / CHECKPOINT_EVERY + 1 /\
  last (written st) = Some (main_loop completed).2 /\
  (length (returned completed) < CHECKPOINT_EVERY ->
   written st = [(main_loop completed).2]).
Proof.
  unfold main_loop. simpl.
  destruct (collect_spec completed) as (_ & -> & _).
  unfold checkpoints at 1. rewrite length_app, length_fmap, length_seq.
  split; [reflexivity|]. split; [apply last_snoc|].
  intros Hfew. unfold checkpoints.
  rewrite Nat.div_small by exact Hfew. reflexivity.
Qed.

Lemma writes_of_a_run_witness :
  written (main_loop fault_then_ada).1 = [(main_loop fault_then_ada).2].
Proof.
  apply (proj2 (proj2 (writes_of_a_run fault_then_ada))).
  vm_compute. lia.
Defined.

(** X21. When every record of the roster has a ['Name'], nobody is dropped
    and nothing is printed: there are as many results as records, whatever
    the services do. *)
Theorem named_roster_loses_nobody
    (remote : Remote) (roster : list (gmap pystr pystr)) :
  Forall (fun person => is_Some (person !! py "Name")) roster ->
  length (results (main remote roster).1) = length roster /\
  printed (main remote roster).1 = [].
Proof.
  intros Hnamed. unfold main, main_loop. simpl.
  destruct (collect_spec (map (process_person remote) roster)) as (-> & _ & ->).
  induction Hnamed as [|person roster [name Hname] _ [IH1 IH2]]; [by split|].
  destruct (process_person_named remote person name Hname) as (data & _ & Hrow).
  simpl map. rewrite Hrow.
  rewrite returned_cons_return. simpl length. split; [by rewrite IH1|].
  exact IH2.
Qed.

Lemma named_roster_loses_nobody_witness :
  length (results (main unreachable [ada; ada]).1) = 2.
Proof.
  apply (named_roster_loses_nobody unreachable [ada; ada]).
  repeat constructor; by eexists.
Defined.

(** ** Further properties of the heading search *)

Lemma startswith_spec p s :
  startswith p s = true <-> exists after, s = p ++ after.
Proof.
  revert s. induction p as [|a p IH]; intros s; simpl.
  - split; [intros _; by exists s|done].
  - destruct s as [|b s].
    + split; [discriminate|]. by intros [after [=]].
    + rewrite andb_true_iff, IH. unfold Char.eqb. rewrite Ascii.eqb_eq. split.
      * intros [-> [after ->]]. by exists after.
      * intros [after [= -> ->]]. split; [reflexivity|]. by exists after.
Qed.

Lemma contains_spec needle hay :
  contains needle hay = true <-> exists before after, hay = before ++ needle ++ after.
Proof.
  induction hay as [|c hay IH]; simpl.
  - rewrite orb_false_r, startswith_spec. split.
    + intros [after H]. by exists [], after.
    + intros (before & after & H). exists after.
      destruct before; [exact H|discriminate].
  - rewrite orb_true_iff, startswith_spec, IH. split.
    + intros [[after H]|(before & after & ->)].
      * by exists [], after.
      * by exists (c :: before), after.
    + intros (before & after & H). destruct before as [|b before].
      * left. by exists after.
      * right. injection H as -> ->. by exists before, after.
Qed.

(** X22. A tag passes the heading filter of a keyword exactly when it is
    an [h2] or [h3] tag and the keyword occurs, as a run of consecutive
    characters, in the lower-cased text of the tag. *)
Theorem heading_with_iff (keyword : pystr) (n : Node) :
  heading_with keyword n = true <->
  (named (py "h2") n = true \/ named (py "h3") n = true) /\
  exists before after, lower (get_text n) = before ++ keyword ++ after.
Proof.
  unfold heading_with, is_heading.
  by rewrite andb_true_iff, orb_true_iff, contains_spec.
Qed.

Lemma heading_with_iff_witness :
  heading_with (py "career") (Tag (py "h2") [] [Text (py "Early life and Career")]) = true.
Proof.
  apply heading_with_iff. split; [by left|].
  by exists (py "early life and "), [].
Defined.

(** X23. A section gives an event exactly when, for the first of its
    keywords that is found in any heading, the first such heading in the
    document is followed by at least one non-empty paragraph; the event is
    made of those paragraphs. Later keywords are not tried once a heading
    was found, even if that heading has no paragraph. *)
Theorem section_event_iff
    (section_name : pystr) (keywords : list pystr) (soup : Node) (ev : Event) :
  section_event section_name keywords soup = Some ev <->
  exists unmatched keyword later heading siblings,
    keywords = unmatched ++ keyword :: later /\
    Forall (fun k => find (heading_with k) soup = None) unmatched /\
    find (heading_with keyword) soup = Some (heading, siblings) /\
    section_content siblings <> [] /\
    ev = event_of section_name (section_content siblings).
Proof.
  induction keywords as [|kw kws IH]; simpl.
  - split; [discriminate|]. intros (u & k & l & _ & _ & H & _). by destruct u.
  - destruct (find (heading_with kw) soup) as [[h sibs]|] eqn:Hfind.
    + split.
      * intros H. exists [], kw, kws, h, sibs.
        destruct (section_content sibs) eqn:E; [discriminate|].
        injection H as <-. repeat split; [constructor|exact Hfind|discriminate].
      * intros (u & k & l & h' & sibs' & Hk & Hu & Hf & Hne & ->).
        destruct u as [|k' u].
        -- injection Hk as <- <-. rewrite Hfind in Hf. injection Hf as <- <-.
           destruct (section_content sibs); [contradiction|reflexivity].
        -- injection Hk as <- _. apply Forall_cons in Hu as [Hu _]. congruence.
    + rewrite IH. split.
      * intros (u & k & l & h & sibs & -> & Hu & Hf & Hne & ->).
        exists (kw :: u), k, l, h, sibs. repeat split; try done. by constructor.
      * intros (u & k & l & h & sibs & Hk & Hu & Hf & Hne & ->).
        destruct u as [|k' u].
        -- injection Hk as <- _. congruence.
        -- injection Hk as <- ->. apply Forall_cons in Hu as [_ Hu].
           by exists u, k, l, h, sibs.
Qed.

Lemma section_event_iff_witness :
  section_event (py "Early Life") [py "early life"; py "childhood"; py "education"]
                education_first
  = Some (event_of (py "Early Life") [py "Born in London."]).
Proof.
  apply section_event_iff.
  exists [py "early life"], (py "childhood"), [py "education"],
         (Tag (py "h2") [] [Text (py "Childhood")]),
         [Tag (py "p") [] [Text (py "Born in London.")]].
  split; [reflexivity|]. split; [by repeat constructor|].
  split; [vm_compute; reflexivity|]. split; [vm_compute; discriminate|].
  vm_compute. reflexivity.
Defined.

(** ** The directory structure of [github_tree.py] *)

Lemma split_on_nonempty sep s : split_on sep s <> [].
Proof.
  destruct s as [|c r]; simpl; [discriminate|].
  destruct (Char.eqb c sep); [discriminate|].
  destruct (split_on sep r); discriminate.
Qed.

Lemma removelast_last {A} (l : list A) (d : A) :
  l <> [] -> removelast l ++ [List.last l d] = l.
Proof. intros H. symmetry. by apply app_removelast_last. Qed.

Lemma entry_at_snoc_dir part parts level below :
  parts <> [] -> level !! part = Some (Dir below) ->
  entry_at (part :: parts) level = entry_at parts below.
Proof. intros Hne Hl. destruct parts; [contradiction|]. simpl. by rewrite Hl. Qed.

Lemma place_lookup dirs name leaf level level' :
  place dirs name leaf level = Return level' ->
  entry_at (dirs ++ [name]) level' = Some leaf.
Proof.
  revert level level'. induction dirs as [|part dirs IH]; intros level level'; simpl.
  - intros [= <-]. apply lookup_insert_eq.
  - destruct (level !! part) as [[|below]|] eqn:Hpart.
    + destruct dirs; discriminate.
    + unfold mbind, outcome_bind.
      destruct (place dirs name leaf below) as [contents|] eqn:Hplace; [|discriminate].
      intros [= <-]. apply IH in Hplace.
      destruct (dirs ++ [name]) eqn:E; [by destruct dirs|].
      by rewrite lookup_insert_eq.
    + unfold mbind, outcome_bind.
      destruct (place dirs name leaf ∅) as [contents|] eqn:Hplace; [|discriminate].
      intros [= <-]. apply IH in Hplace.
      destruct (dirs ++ [name]) eqn:E; [by destruct dirs|].
      by rewrite lookup_insert_eq.
Qed.

Lemma place_other dirs name leaf level level' key :
  place dirs name leaf level = Return level' ->
  key <> hd name dirs -> level' !! key = level !! key.
Proof.
  destruct dirs as [|part dirs]; simpl.
  - intros [= <-] Hne. by rewrite lookup_insert_ne.
  - intros H Hne. unfold mbind, outcome_bind in H.
    destruct (level !! part) as [[|below]|].
    + destruct dirs; discriminate.
    + destruct (place dirs name leaf below); [|discriminate].
      injection H as <-. by rewrite lookup_insert_ne.
    + destruct (place dirs name leaf ∅); [|discriminate].
      injection H as <-. by rewrite lookup_insert_ne.
Qed.

Lemma place_raises_iff dirs name leaf level :
  (exists msg, place dirs name leaf level = Raise msg) <->
  exists above part below,
    dirs = above ++ part :: below /\ entry_at (above ++ [part]) level = Some File.
Proof.
  revert level. induction dirs as [|part dirs IH]; intros level; simpl.
  - split; [by intros [? [=]]|]. intros (a & p & b & H & _). by destruct a.
  - destruct (level !! part) as [[|contents]|] eqn:Hpart.
    + split; [|destruct dirs; eauto]. intros _.
      exists [], part, dirs. simpl. by rewrite Hpart.
    + unfold mbind, outcome_bind. split.
      * intros [msg H].
        destruct (place dirs name leaf contents) as [c|m] eqn:Hplace; [discriminate|].
        destruct (proj1 (IH contents) (ex_intro _ m Hplace)) as (a & p & b & -> & Hf).
        exists (part :: a), p, b. split; [reflexivity|].
        simpl app. rewrite (entry_at_snoc_dir part (a ++ [p]) level contents);
          [exact Hf|by destruct a|exact Hpart].
      * intros (a & p & b & Hd & Hf). destruct a as [|q a].
        -- injection Hd as <- _. simpl in Hf. congruence.
        -- injection Hd as <- ->.
           simpl app in Hf.
           rewrite (entry_at_snoc_dir part (a ++ [p]) level contents) in Hf;
             [|by destruct a|exact Hpart].
           destruct (proj2 (IH contents)) as [msg Hmsg]; [by exists a, p, b|].
           exists msg. by rewrite Hmsg.
    + unfold mbind, outcome_bind. split.
      * intros [msg H].
        destruct (place dirs name leaf ∅) as [c|m] eqn:Hplace; [discriminate|].
        destruct (proj1 (IH ∅) (ex_intro _ m Hplace)) as (a & p & b & -> & Hf).
        destruct a; simpl in Hf.
        -- by rewrite lookup_empty in Hf.
        -- rewrite lookup_empty in Hf. by destruct (a ++ [p]).
      * intros (a & p & b & Hd & Hf). destruct a as [|q a].
        -- injection Hd as <- _. simpl in Hf. congruence.
        -- injection Hd as <- ->. simpl in Hf. rewrite Hpart in Hf.
           by destruct (a ++ [p]).
Qed.

Lemma place_items_app items1 items2 structure :
  place_items (items1 ++ items2) structure =
  structure' ← place_items items1 structure; place_items items2 structure'.
Proof.
  revert structure. induction items1 as [|item items1 IH]; intros structure; simpl.
  - reflexivity.
  - unfold mbind, outcome_bind in *.
    destruct (place_item item structure) as [s|]; [apply IH|reflexivity].
Qed.

Lemma place_item_shown item :
  item_type item = py "blob" \/ item_type item = py "tree" ->
  forall structure,
    place_item item structure =
    place (removelast (split_on "/"%char (item_path item)))
          (List.last (split_on "/"%char (item_path item)) [])
          (if bool_decide (item_type item = py "blob") then File else Dir ∅)
          structure.
Proof.
  intros Htype structure. unfold place_item.
  destruct Htype as [H|H]; rewrite H; reflexivity.
Qed.

Lemma place_item_skipped item structure :
  item_type item <> py "blob" -> item_type item <> py "tree" ->
  place_item item structure = Return structure.
Proof.
  intros Hb Ht. unfold place_item.
  by rewrite !bool_decide_eq_false_2.
Qed.

(** X24. When the structure is built, the item listed last is found at its
    path: a file for a blob, an empty directory for a tree. *)
Theorem last_item_is_found
    (items : list Item) (item : Item) (structure : gmap pystr Entry) :
  build_directory_structure (items ++ [item]) = Return structure ->
  (item_type item = py "blob" ->
   entry_at (split_on "/"%char (item_path item)) structure = Some File) /\
  (item_type item = py "tree" ->
   entry_at (split_on "/"%char (item_path item)) structure = Some (Dir ∅)).
Proof.
  unfold build_directory_structure. rewrite place_items_app.
  unfold mbind, outcome_bind.
  destruct (place_items items ∅) as [before|]; [|discriminate]. simpl.
  destruct (place_item item before) as [after|] eqn:Hitem; [|discriminate].
  intros [= <-].
  pose proof (removelast_last (split_on "/"%char (item_path item)) []
                (split_on_nonempty _ _)) as Hparts.
  split; intros Htype.
  - rewrite place_item_shown in Hitem by (by left).
    apply place_lookup in Hitem. rewrite Hparts in Hitem.
    by rewrite Htype in Hitem.
  - rewrite place_item_shown in Hitem by (by right).
    apply place_lookup in Hitem. rewrite Hparts in Hitem.
    by rewrite Htype in Hitem.
Qed.

Lemma last_item_is_found_witness :
  let structure : gmap pystr Entry :=
    {[ py "README.md" := File;
       py "src" := Dir {[ py "app" := Dir {[ py "main.py" := File ]} ]} ]} in
  build_directory_structure sample_listing = Return structure /\
  entry_at [py "src"; py "app"; py "main.py"] structure = Some File.
Proof.
  intros structure.
  assert (E : build_directory_structure sample_listing = Return structure)
    by (vm_compute; reflexivity).
  split; [exact E|].
  exact (proj1 (last_item_is_found (take 3 sample_listing)
                  {| item_type := py "blob"; item_path := py "src/app/main.py" |}
                  structure E) eq_refl).
Defined.

(** X25. Placing a blob or a tree raises exactly when one of the
    directories of its path is already there as a file; an item of another
    type never raises. *)
Theorem place_item_raises_iff (item : Item) (structure : gmap pystr Entry) :
  (exists msg, place_item item structure = Raise msg) <->
  (item_type item = py "blob" \/ item_type item = py "tree") /\
  exists above part below,
    removelast (split_on "/"%char (item_path item)) = above ++ part :: below /\
    entry_at (above ++ [part]) structure = Some File.
Proof.
  destruct (decide (item_type item = py "blob")) as [Hb|Hb];
    [|destruct (decide (item_type item = py "tree")) as [Ht|Ht]].
  - rewrite place_item_shown by (by left). rewrite place_raises_iff. tauto.
  - rewrite place_item_shown by (by right). rewrite place_raises_iff. tauto.
  - rewrite place_item_skipped by done. split.
    + by intros [? [=]].
    + intros [[?|?] _]; contradiction.
Qed.

Lemma place_item_raises_iff_witness :
  exists msg,
    place_item {| item_type := py "blob"; item_path := py "README.md/notes" |}
               {[ py "README.md" := File ]} = Raise msg.
Proof.
  apply place_item_raises_iff. split; [by left|].
  exists [], (py "README.md"), []. split; vm_compute; reflexivity.
Defined.

Lemma hd_removelast (parts : list pystr) :
  parts <> [] -> hd (List.last parts []) (removelast parts) = hd [] parts.
Proof. destruct parts as [|p [|q ps]]; [contradiction|reflexivity|reflexivity]. Qed.

(** X26. Placing an item changes nothing outside the top-level entry that
    its path starts with. *)
Theorem place_item_keeps_other_entries
    (item : Item) (structure structure' : gmap pystr Entry) (key : pystr) :
  place_item item structure = Return structure' ->
  key <> hd [] (split_on "/"%char (item_path item)) ->
  structure' !! key = structure !! key.
Proof.
  intros Hplace Hkey.
  rewrite <- (hd_removelast _ (split_on_nonempty "/"%char (item_path item))) in Hkey.
  destruct (decide (item_type item = py "blob")) as [Hb|Hb];
    [|destruct (decide (item_type item = py "tree")) as [Ht|Ht]].
  - rewrite place_item_shown in Hplace by (by left).
    exact (place_other _ _ _ _ _ key Hplace Hkey).
  - rewrite place_item_shown in Hplace by (by right).
    exact (place_other _ _ _ _ _ key Hplace Hkey).
  - rewrite place_item_skipped in Hplace by done. by injection Hplace as <-.
Qed.

Lemma place_item_keeps_other_entries_witness :
  let structure' : gmap pystr Entry :=
    {[ py "README.md" := File; py "src" := Dir {[ py "app.py" := File ]} ]} in
  place_item {| item_type := py "blob"; item_path := py "src/app.py" |}
             {[ py "README.md" := File ]} = Return structure' /\
  structure' !! py "README.md" = Some File.
Proof.
  intros structure'.
  assert (H : place_item {| item_type := py "blob"; item_path := py "src/app.py" |}
                         {[ py "README.md" := File ]} = Return structure')
    by (vm_compute; reflexivity).
  split; [exact H|].
  rewrite (place_item_keeps_other_entries _ _ _ (py "README.md") H).
  - reflexivity.
  - vm_compute. discriminate.
Defined.

(** X27. Items that are neither blobs nor trees (the commits of
    submodules) leave no trace: the structure is the one built from the
    listing without them. *)
Theorem other_items_are_skipped (before after : list Item) (item : Item) :
  item_type item <> py "blob" -> item_type item <> py "tree" ->
  build_directory_structure (before ++ item :: after) =
  build_directory_structure (before ++ after).
Proof.
  intros Hb Ht. unfold build_directory_structure.
  rewrite !place_items_app. unfold mbind, outcome_bind.
  destruct (place_items before ∅) as [structure|]; [|reflexivity].
  simpl. by rewrite place_item_skipped.
Qed.

Lemma other_items_are_skipped_witness :
  build_directory_structure sample_listing =
  build_directory_structure (take 2 sample_listing ++ drop 3 sample_listing).
Proof.
  apply (other_items_are_skipped (take 2 sample_listing) (drop 3 sample_listing)
           {| item_type := py "commit"; item_path := py "vendor" |});
    discriminate.
Defined.
